(** * UploadWizard: the document-intake orchestrator

    A shallow embedding of the [UploadWizard] component: its React state, the
    two handlers [handleFileUpload] and [handleReset], the derived flag
    [isComplete], and the trace of state updates, collaborator calls and
    notifications each handler run produces.

    A handler reads [parsedData] and [currentStep] from the render its
    closure belongs to and writes through the state setters.  [run_op] takes
    runs one after another, each started from the current state and finished
    before the next; [run_from] and [live_step] describe runs that are still
    in flight or overlap.  Callbacks handed in by the parent are assumed not
    to throw; console logging is left out. *)

From Stdlib Require Import String Ascii List ZArith Bool Arith Lia.
Import ListNotations.
Open Scope string_scope.

(** ** JavaScript values, as far as the component looks at them *)

Module JS.

(** A value stored in a [parsedData] slot: [null] initially and after a
    reset, otherwise whatever the parser returned as [parsed.data].  The
    component never looks inside an object. *)
Inductive value : Type :=
| Null
| Undefined
| Bool (b : bool)
| Num (n : Z)
| Str (s : string)
| Obj (fields : list (string * Z)).

(** ToBoolean. *)
Definition truthy (v : value) : bool :=
  match v with
  | Null | Undefined => false
  | Bool b => b
  | Num n => negb (n =? 0)%Z
  | Str s => negb (s =? "")
  | Obj _ => true
  end.

(** [a && b] *)
Definition and (a b : value) : value := if truthy a then b else a.

(** A string-or-null value: [None] is [null]/[undefined]. *)
Definition truthy_str (o : option string) : bool :=
  match o with
  | None => false
  | Some s => negb (s =? "")
  end.

(** [o || d] for a string-or-null [o]. *)
Definition or_str (o : option string) (d : string) : string :=
  match o with
  | Some s => if s =? "" then d else s
  | None => d
  end.

(** [s.includes(sub)] *)
Fixpoint includes (s sub : string) : bool :=
  match s with
  | EmptyString => String.prefix sub s
  | String _ rest => String.prefix sub s || includes rest sub
  end.

(** An [Error] object; only its [message] is read. *)
Record Error : Type := new_Error { message : string }.

End JS.

(** ** Slots *)

Module Key.
(** The keys of [STEPS]; the handlers are only called with [step.key]. *)
Inductive t : Type := asset_allocation | performance.

Definition eqb (a b : t) : bool :=
  match a, b with
  | asset_allocation, asset_allocation => true
  | performance, performance => true
  | _, _ => false
  end.

Definition other (k : t) : t :=
  match k with
  | asset_allocation => performance
  | performance => asset_allocation
  end.

End Key.

Module Status.
(** The status strings; a slot of [uploadStatus] holds one of them or
    [null] (modelled as [None]). *)
Inductive t : Type := idle | processing | success | error.
End Status.

(** An object with the two keys [asset_allocation] and [performance]:
    the shape of [uploadStatus], [parsedData] and [errors]. *)
Record slots (A : Type) : Type := mk_slots
  { asset_allocation : A;
    performance : A }.
Arguments mk_slots {A} _ _.
Arguments asset_allocation {A} _.
Arguments performance {A} _.

(** [o[k]] *)
Definition get {A} (k : Key.t) (o : slots A) : A :=
  match k with
  | Key.asset_allocation => asset_allocation o
  | Key.performance => performance o
  end.

(** [{ ...o, [k]: v }] *)
Definition set {A} (k : Key.t) (v : A) (o : slots A) : slots A :=
  match k with
  | Key.asset_allocation => mk_slots v (performance o)
  | Key.performance => mk_slots (asset_allocation o) v
  end.

(** Step definitions *)
Record step : Type := mk_step
  { id : nat;
    key : Key.t;
    title : string;
    description : string;
    expectedType : string }.

Definition STEPS : list step :=
  [ mk_step 1 Key.asset_allocation "Asset Allocation Report"
      "Investment Allocation PDF" "asset_allocation";
    mk_step 2 Key.performance "Performance Report"
      "Investment Movement and Returns PDF" "performance" ].

(** ** Collaborators *)

Record File : Type := mk_File { name : string; content : list nat }.

(** What [extractTextFromPDF] resolves to; [fullText] may be missing. *)
Record extracted : Type := mk_extracted { fullText : option string }.

(** What [identifyReportType] returns when it returns an object; both
    members may be [null]. *)
Record identification : Type := mk_identification
  { type : option string;
    report_name : option string }.

Record parsed : Type := mk_parsed { data : JS.value }.

(** The three imported functions.  Each either throws (rejects) with an
    [Error] or returns; [identifyReportType] may also return [null]. *)
Record collaborators : Type := mk_collaborators
  { extractTextFromPDF : File -> JS.Error + extracted;
    identifyReportType : string -> JS.Error + option identification;
    parseReport : extracted -> JS.Error + parsed }.

(** The props of the component: whether each callback was passed. *)
Record props : Type := mk_props
  { onComplete : bool;
    onPartialData : bool }.

(** ** Component state *)

Record wizard_state : Type := mk_state
  { currentStep : nat;
    uploadStatus : slots (option Status.t);
    parsedData : slots JS.value;
    errors : slots (option string) }.

(** The [useState] initial values. *)
Definition initial : wizard_state :=
  {| currentStep := 1;
     uploadStatus := mk_slots (Some Status.idle) (Some Status.idle);
     parsedData := mk_slots JS.Null JS.Null;
     errors := mk_slots None None |}.

(** [const isComplete = parsedData.asset_allocation && parsedData.performance] *)
Definition isComplete (s : wizard_state) : JS.value :=
  JS.and (asset_allocation (parsedData s)) (performance (parsedData s)).

(** [isComplete] where the component branches on it. *)
Definition is_complete (s : wizard_state) : bool := JS.truthy (isComplete s).

(** [o === st] for a status-or-null [o], as in [status === 'success']. *)
Definition status_is (st : Status.t) (o : option Status.t) : bool :=
  match o, st with
  | Some Status.idle, Status.idle
  | Some Status.processing, Status.processing
  | Some Status.success, Status.success
  | Some Status.error, Status.error => true
  | _, _ => false
  end.

(** Every step's slot of [uploadStatus] is ['success']. *)
Definition all_success (s : wizard_state) : bool :=
  forallb (fun st => status_is Status.success (get (key st) (uploadStatus s))) STEPS.

(** ** Effects of a handler run, in program order *)

Inductive effect : Type :=
| setUploadStatus (k : Key.t) (v : option Status.t)
    (* setUploadStatus(prev => ({ ...prev, [k]: v })) *)
| setErrors (k : Key.t) (v : option string)
    (* setErrors(prev => ({ ...prev, [k]: v })) *)
| setParsedData (o : slots JS.value)
    (* setParsedData(o) *)
| setParsedDataAt (k : Key.t) (v : JS.value)
    (* setParsedData(prev => ({ ...prev, [k]: v })) *)
| setCurrentStep (n : nat)
    (* setCurrentStep(n) *)
| setTimeout (ms : nat) (n : nat)
    (* setTimeout(() => setCurrentStep(n), ms) *)
| call_extractTextFromPDF (f : File)
| call_identifyReportType (text : string)
| call_parseReport (e : extracted)
| call_onPartialData (k : Key.t) (v : JS.value)
| call_onComplete (o : slots JS.value).

(** A computation that records effects and either returns or throws. *)
Definition M (A : Type) : Type := (list effect * (JS.Error + A))%type.

Definition ret {A} (a : A) : M A := ([], inr a).

Definition bind {A B} (m : M A) (f : A -> M B) : M B :=
  match m with
  | (w, inl e) => (w, inl e)
  | (w, inr a) => let (w', r) := f a in ((w ++ w')%list, r)
  end.

Definition emit (e : effect) : M unit := ([e], inr tt).

Definition throw {A} (e : JS.Error) : M A := ([], inl e).

(** [await p]: the value or the rejection of a settled promise. *)
Definition await {A} (r : JS.Error + A) : M A := ([], r).

(** [try { body } catch (err) { handler err }] *)
Definition try_catch (body : M unit) (handler : JS.Error -> M unit) : M unit :=
  match body with
  | (w, inl e) => let (w', r) := handler e in ((w ++ w')%list, r)
  | (w, inr a) => (w, inr a)
  end.

Definition when (b : bool) (m : M unit) : M unit := if b then m else ret tt.

Declare Scope js_scope.
Delimit Scope js_scope with js.
Notation "x <- m ;; k" := (bind m (fun x => k))
  (at level 100, m at next level, right associativity) : js_scope.
Notation "m ;; k" := (bind m (fun _ => k))
  (at level 100, right associativity) : js_scope.
Open Scope js_scope.

(** ** The handlers *)

Definition extraction_message : string :=
  "Could not extract text from PDF. The file may be image-based or corrupted.".

Definition mismatch_message (actualName expectedName : string) : string :=
  "This appears to be a " ++ actualName ++ ". Please upload a "
    ++ expectedName ++ " for this step.".

(** [identification?.type] and [identification?.name] *)
Definition type_of (i : option identification) : option string :=
  match i with Some r => type r | None => None end.

Definition name_of (i : option identification) : option string :=
  match i with Some r => report_name r | None => None end.

(** [t !== expected], for a string-or-null [t] and a string [expected]. *)
Definition type_differs (t : option string) (expected : string) : bool :=
  match t with
  | Some s => negb (s =? expected)
  | None => true
  end.

(** [!fullText || fullText.length < 100] *)
Definition insufficient (ft : option string) : bool :=
  negb (JS.truthy_str ft)
  || match ft with Some t => (String.length t <? 100)%nat | None => true end.

(** [STEPS.find(s => s.key === stepKey)] *)
Definition step_of (stepKey : Key.t) : option step :=
  find (fun s => Key.eqb (key s) stepKey) STEPS.

(** The closing [if]/[else if] of the [try] block: the completion check on
    the freshly merged object. *)
Definition notify_complete (p : props) (stepKey : Key.t)
    (newParsedData : slots JS.value) : M unit :=
  if Key.eqb stepKey Key.performance
     && JS.truthy (asset_allocation newParsedData)
  then when (onComplete p) (emit (call_onComplete newParsedData))
  else if Key.eqb stepKey Key.asset_allocation
          && JS.truthy (performance newParsedData)
  then when (onComplete p) (emit (call_onComplete newParsedData))
  else ret tt.

(** The body of the [try] block, after the guards.  [render] is the state
    of the render the callback belongs to: its [parsedData] and [currentStep]
    are the ones the closure captured. *)
Definition process (p : props) (env : collaborators) (render : wizard_state)
    (file : File) (stepKey : Key.t) : M unit :=
  emit (call_extractTextFromPDF file) ;;
  extractedPdf <- await (extractTextFromPDF env file) ;;
  when (insufficient (fullText extractedPdf))
    (throw (JS.new_Error extraction_message)) ;;
  let text := match fullText extractedPdf with Some t => t | None => "" end in
  emit (call_identifyReportType text) ;;
  identification <- await (identifyReportType env text) ;;
  match step_of stepKey with
  | None =>
      (* step is undefined: reading step.expectedType throws a TypeError *)
      throw (JS.new_Error
               "Cannot read properties of undefined (reading 'expectedType')")
  | Some step =>
      when (type_differs (type_of identification) (expectedType step))
        (let expectedName := title step in
         let actualName := JS.or_str (name_of identification) "Unknown report type" in
         throw (JS.new_Error (mismatch_message actualName expectedName))) ;;
      emit (call_parseReport extractedPdf) ;;
      parsed <- await (parseReport env extractedPdf) ;;
      let newParsedData := set stepKey (data parsed) (parsedData render) in
      emit (setParsedData newParsedData) ;;
      emit (setUploadStatus stepKey (Some Status.success)) ;;
      when (onPartialData p) (emit (call_onPartialData stepKey (data parsed))) ;;
      when (currentStep render <? List.length STEPS)%nat
        (emit (setTimeout 500 (currentStep render + 1))) ;;
      notify_complete p stepKey newParsedData
  end.

Definition handleFileUpload (p : props) (env : collaborators)
    (render : wizard_state)
    (file : option File) (error : option string) (stepKey : Key.t) : M unit :=
  if JS.truthy_str error then
    emit (setErrors stepKey error) ;;
    emit (setUploadStatus stepKey (Some Status.error)) ;;
    ret tt
  else
    match file with
    | None => ret tt
    | Some file =>
        emit (setUploadStatus stepKey (Some Status.processing)) ;;
        emit (setErrors stepKey None) ;;
        try_catch
          (process p env render file stepKey)
          (fun err =>
             emit (setErrors stepKey (Some (JS.message err))) ;;
             emit (setUploadStatus stepKey (Some Status.error)))
    end.

Definition handleReset (stepKey : Key.t) : M unit :=
  emit (setParsedDataAt stepKey JS.Null) ;;
  emit (setUploadStatus stepKey None) ;;
  emit (setErrors stepKey None).

(** ** Folding a run into the state *)

Definition with_uploadStatus (s : wizard_state) o : wizard_state :=
  mk_state (currentStep s) o (parsedData s) (errors s).
Definition with_parsedData (s : wizard_state) o : wizard_state :=
  mk_state (currentStep s) (uploadStatus s) o (errors s).
Definition with_errors (s : wizard_state) o : wizard_state :=
  mk_state (currentStep s) (uploadStatus s) (parsedData s) o.
Definition with_currentStep (s : wizard_state) n : wizard_state :=
  mk_state n (uploadStatus s) (parsedData s) (errors s).

(** State updates are applied in the order they were queued; the timer of a
    run fires before the next handler starts. *)
Definition apply_effect (s : wizard_state) (e : effect) : wizard_state :=
  match e with
  | setUploadStatus k v => with_uploadStatus s (set k v (uploadStatus s))
  | setErrors k v => with_errors s (set k v (errors s))
  | setParsedData o => with_parsedData s o
  | setParsedDataAt k v => with_parsedData s (set k v (parsedData s))
  | setCurrentStep n => with_currentStep s n
  | setTimeout _ n => with_currentStep s n
  | call_extractTextFromPDF _ | call_identifyReportType _
  | call_parseReport _ | call_onPartialData _ _ | call_onComplete _ => s
  end.

Definition commit (s : wizard_state) (w : list effect) : wizard_state :=
  fold_left apply_effect w s.

(** What the user (through the slots' DropZone, the replace button and the
    step indicators) can do. *)
Inductive op : Type :=
| submitFile (stepKey : Key.t) (file : option File) (error : option string)
| resetSlot (stepKey : Key.t)
| selectStep (n : nat).

Definition dispatch (p : props) (env : collaborators) (s : wizard_state)
    (o : op) : M unit :=
  match o with
  | submitFile k file error => handleFileUpload p env s file error k
  | resetSlot k => handleReset k
  | selectStep n => emit (setCurrentStep n)
  end.

Definition trace (p : props) (env : collaborators) (s : wizard_state)
    (o : op) : list effect := fst (dispatch p env s o).

Definition run_op (p : props) (env : collaborators) (s : wizard_state)
    (o : op) : wizard_state := commit s (trace p env s o).

Definition run_ops (p : props) (env : collaborators) (s : wizard_state)
    (os : list op) : wizard_state := fold_left (run_op p env) os s.

(** The states at rest of a session in which runs do not overlap: each
    operation is started from the current state and has applied all its
    effects before the next one starts.  States shown while a handler is
    still waiting, and sessions with several runs in flight, are described by
    [live_reachable] below. *)
Inductive reachable (p : props) (env : collaborators) : wizard_state -> Prop :=
| reach_initial : reachable p env initial
| reach_step s o : reachable p env s -> reachable p env (run_op p env s o).

(** ** Observations on a trace *)

Definition is_onComplete (e : effect) : bool :=
  match e with call_onComplete _ => true | _ => false end.
Definition is_onPartialData (e : effect) : bool :=
  match e with call_onPartialData _ _ => true | _ => false end.
Definition is_parseReport (e : effect) : bool :=
  match e with call_parseReport _ => true | _ => false end.
Definition is_identifyReportType (e : effect) : bool :=
  match e with call_identifyReportType _ => true | _ => false end.
Definition is_collaborator_call (e : effect) : bool :=
  match e with
  | call_extractTextFromPDF _ | call_identifyReportType _
  | call_parseReport _ => true
  | _ => false
  end.
Definition is_notification (e : effect) : bool :=
  is_onComplete e || is_onPartialData e.

Definition count (f : effect -> bool) (w : list effect) : nat :=
  List.length (filter f w).

(** The payloads [onComplete] was called with, in order. *)
Definition onComplete_payloads (w : list effect) : list (slots JS.value) :=
  flat_map (fun e => match e with call_onComplete o => [o] | _ => [] end) w.

(** The arguments [onPartialData] was called with, in order. *)
Definition onPartialData_calls (w : list effect) : list (Key.t * JS.value) :=
  flat_map (fun e => match e with call_onPartialData k v => [(k, v)] | _ => [] end) w.

(** The trace of a sequence of operations run one after another. *)
Fixpoint trace_ops (p : props) (env : collaborators) (s : wizard_state)
    (os : list op) : list effect :=
  match os with
  | [] => []
  | o :: os' => (trace p env s o ++ trace_ops p env (run_op p env s o) os')%list
  end.

(** ** Outcomes of a submission, in terms of what the collaborators do *)

(** A submitted [file] for slot [k] passes extraction, the length floor and
    the type check, and the parser returns [d] as [parsed.data]. *)
Inductive succeeds (env : collaborators) (file : File) (k : Key.t)
    (d : JS.value) : Prop :=
| succeeds_intro e t i st pr :
    extractTextFromPDF env file = inr e ->
    fullText e = Some t ->
    100 <= String.length t ->
    identifyReportType env t = inr i ->
    step_of k = Some st ->
    type_of i = Some (expectedType st) ->
    parseReport env e = inr pr ->
    data pr = d ->
    succeeds env file k d.

Inductive failure_kind : Type :=
| SelectionError | ExtractionFailure | TypeMismatch | ParseFailure.

(** The four ways a submission to slot [k] fails, with the message that
    describes the failure. *)
Inductive fails (env : collaborators) (file : option File)
    (error : option string) (k : Key.t) : failure_kind -> string -> Prop :=
| fails_selection msg :
    error = Some msg -> msg <> "" ->
    fails env file error k SelectionError msg
| fails_extract_throws f err :
    JS.truthy_str error = false -> file = Some f ->
    extractTextFromPDF env f = inl err ->
    fails env file error k ExtractionFailure (JS.message err)
| fails_extract_short f e :
    JS.truthy_str error = false -> file = Some f ->
    extractTextFromPDF env f = inr e ->
    insufficient (fullText e) = true ->
    fails env file error k ExtractionFailure extraction_message
| fails_mismatch f e t i st :
    JS.truthy_str error = false -> file = Some f ->
    extractTextFromPDF env f = inr e ->
    fullText e = Some t -> 100 <= String.length t ->
    identifyReportType env t = inr i ->
    step_of k = Some st ->
    type_of i <> Some (expectedType st) ->
    fails env file error k TypeMismatch
      (mismatch_message (JS.or_str (name_of i) "Unknown report type") (title st))
| fails_parse f e t i st err :
    JS.truthy_str error = false -> file = Some f ->
    extractTextFromPDF env f = inr e ->
    fullText e = Some t -> 100 <= String.length t ->
    identifyReportType env t = inr i ->
    step_of k = Some st ->
    type_of i = Some (expectedType st) ->
    parseReport env e = inl err ->
    fails env file error k ParseFailure (JS.message err).

(** ** What one operation can do to one slot *)

Inductive slot_change (env : collaborators) (s s' : wizard_state)
    (k : Key.t) : Prop :=
| slot_kept :
    get k (uploadStatus s') = get k (uploadStatus s) ->
    get k (parsedData s') = get k (parsedData s) ->
    get k (errors s') = get k (errors s) ->
    slot_change env s s' k
| slot_failed msg :
    get k (uploadStatus s') = Some Status.error ->
    get k (parsedData s') = get k (parsedData s) ->
    get k (errors s') = Some msg ->
    slot_change env s s' k
| slot_parsed e pr :
    parseReport env e = inr pr ->
    get k (uploadStatus s') = Some Status.success ->
    get k (parsedData s') = data pr ->
    get k (errors s') = None ->
    slot_change env s s' k
| slot_cleared :
    get k (uploadStatus s') = None ->
    get k (parsedData s') = JS.Null ->
    get k (errors s') = None ->
    slot_change env s s' k.

(** ** A sample installation of the collaborators *)

Module Sample.

Definition filler (n : nat) : string :=
  string_of_list_ascii (repeat "x"%char n).

Definition allocation_pdf : File := mk_File "allocation.pdf" [1; 2; 3].
Definition movement_pdf : File := mk_File "movement.pdf" [4; 5; 6].
Definition scan_pdf : File := mk_File "scan.pdf" [7].
Definition memo_pdf : File := mk_File "memo.pdf" [8].
Definition damaged_pdf : File := mk_File "damaged.pdf" [9].
Definition locked_pdf : File := mk_File "locked.pdf" [].

Definition allocation_text : string := "Investment Allocation " ++ filler 100.
Definition movement_text : string :=
  "Investment Movement and Returns " ++ filler 100.
Definition damaged_text : string :=
  "Investment Allocation (damaged table) " ++ filler 100.

Definition allocation_data : JS.value :=
  JS.Obj [("totalValue", 1250000%Z); ("holdings", 14%Z)].
Definition movement_data : JS.value :=
  JS.Obj [("endingMarketValue", 1300000%Z); ("twrOneYear", 7%Z)].

Definition extract (f : File) : JS.Error + extracted :=
  if name f =? "allocation.pdf" then inr (mk_extracted (Some allocation_text))
  else if name f =? "movement.pdf" then inr (mk_extracted (Some movement_text))
  else if name f =? "scan.pdf" then inr (mk_extracted (Some (filler 99)))
  else if name f =? "memo.pdf" then inr (mk_extracted (Some (filler 100)))
  else if name f =? "damaged.pdf" then inr (mk_extracted (Some damaged_text))
  else inl (JS.new_Error "Invalid PDF structure").

Definition identify (text : string) : JS.Error + option identification :=
  if String.prefix "Investment Allocation" text then
    inr (Some (mk_identification (Some "asset_allocation")
                                 (Some "Asset Allocation Report")))
  else if String.prefix "Investment Movement" text then
    inr (Some (mk_identification (Some "performance")
                                 (Some "Performance Report")))
  else inr None.

Definition parse (e : extracted) : JS.Error + parsed :=
  match fullText e with
  | Some t =>
      if JS.includes t "damaged" then
        inl (JS.new_Error "No allocation table found")
      else if String.prefix "Investment Allocation" t then
        inr (mk_parsed allocation_data)
      else inr (mk_parsed movement_data)
  | None => inl (JS.new_Error "Nothing to parse")
  end.

Definition env : collaborators := mk_collaborators extract identify parse.

(** Both callbacks passed, as AppShell does. *)
Definition both : props := mk_props true true.

End Sample.

(** ** Further derived values and the user's moves *)

(** [uploadStatus.asset_allocation !== 'idle' || uploadStatus.performance !== 'idle'],
    the [hasAnyUpload] flag of the earlier version of the wizard, whose
    handlers are the same. *)
Definition hasAnyUpload (s : wizard_state) : bool :=
  negb (status_is Status.idle (asset_allocation (uploadStatus s)))
  || negb (status_is Status.idle (performance (uploadStatus s))).

(** The text beside the section title:
    [isComplete ? 'Complete' : `${uploadStatus.asset_allocation === 'success' ? 1 : 0} of 2 uploaded`] *)
Definition progress_label (s : wizard_state) : string :=
  if is_complete s then "Complete"
  else (if status_is Status.success (asset_allocation (uploadStatus s))
        then "1" else "0") ++ " of 2 uploaded".

(** The step indicators call [setCurrentStep(step.id)] for a step of
    [STEPS]; the other two operations come from the slots. *)
Definition from_ui (o : op) : bool :=
  match o with
  | selectStep n => existsb (fun st => id st =? n)%nat STEPS
  | submitFile _ _ _ | resetSlot _ => true
  end.

(** A handler run from the closure of the render [render] while the state
    has meanwhile become [s]: the functional updates act on [s], everything
    the closure captured is read from [render]. *)
Definition run_from (p : props) (env : collaborators)
    (render s : wizard_state) (o : op) : wizard_state :=
  commit s (trace p env render o).

(** The ways two runs' effects can interleave, each run keeping its order. *)
Inductive interleaved {A : Type} : list A -> list A -> list A -> Prop :=
| interleaved_nil : interleaved [] [] []
| interleaved_left x a b w :
    interleaved a b w -> interleaved (x :: a) b (x :: w)
| interleaved_right y a b w :
    interleaved a b w -> interleaved a (y :: b) (y :: w).

(** The effects of a trace that [f] selects, in order. *)
Fixpoint choose {X : Type} (f : effect -> option X) (w : list effect) : list X :=
  match w with
  | [] => []
  | e :: w' =>
      match f e with
      | Some x => x :: choose f w'
      | None => choose f w'
      end
  end.

(** What an effect writes into slot [k] of [uploadStatus], of [errors], and
    what it does to [parsedData]. *)
Definition status_write (k : Key.t) (e : effect) : option (option Status.t) :=
  match e with
  | setUploadStatus k' v => if Key.eqb k' k then Some v else None
  | _ => None
  end.

Definition error_write (k : Key.t) (e : effect) : option (option string) :=
  match e with
  | setErrors k' v => if Key.eqb k' k then Some v else None
  | _ => None
  end.

Definition data_write (e : effect)
    : option (slots JS.value -> slots JS.value) :=
  match e with
  | setParsedData o => Some (fun _ => o)
  | setParsedDataAt k v => Some (set k v)
  | _ => None
  end.

Definition onComplete_arg (e : effect) : option (slots JS.value) :=
  match e with call_onComplete o => Some o | _ => None end.


(** ** The session while handlers are in flight *)

Definition is_setTimeout (e : effect) : bool :=
  match e with setTimeout _ _ => true | _ => false end.

(** [now] is the state React holds, [renders] the states of the renders
    before it, [inflight] what each started run has still to do. *)
Record live : Type := mk_live
  { now : wizard_state;
    renders : list wizard_state;
    inflight : list (list effect) }.

(** One step of the session.  A handler is called from the current render
    or, through a callback kept from it, from an earlier one; a run in
    flight performs its next effect; a timer set by a run becomes a task of
    its own that fires at some later point. *)
Inductive live_step (p : props) (env : collaborators) : live -> live -> Prop :=
| live_start o render s R P :
    In render (s :: R) ->
    live_step p env (mk_live s R P)
      (mk_live s R (P ++ [trace p env render o])%list)
| live_effect e w s R P1 P2 :
    is_setTimeout e = false ->
    live_step p env (mk_live s R (P1 ++ (e :: w) :: P2)%list)
      (mk_live (apply_effect s e) (s :: R) (P1 ++ w :: P2)%list)
| live_timer ms n w s R P1 P2 :
    live_step p env (mk_live s R (P1 ++ (setTimeout ms n :: w) :: P2)%list)
      (mk_live s R (P1 ++ w :: [setCurrentStep n] :: P2)%list).

Inductive live_reachable (p : props) (env : collaborators) : live -> Prop :=
| live_initial : live_reachable p env (mk_live initial [] [])
| live_next l l' :
    live_reachable p env l -> live_step p env l l' -> live_reachable p env l'.

(** [uploadStatus[k] !== 'idle'] *)
Definition left_idle (s : wizard_state) (k : Key.t) : bool :=
  negb (status_is Status.idle (get k (uploadStatus s))).

(** A slot that holds a truthy payload is not idle. *)
Definition payload_needs_status (s : wizard_state) : Prop :=
  forall k, JS.truthy (get k (parsedData s)) = true -> left_idle s k = true.

(** What is left of a run writes no ['idle'] and puts a truthy payload only
    into a slot that, by then, is known ([t]) to have left idle. *)
Fixpoint writes_ok (t : Key.t -> bool) (w : list effect) : Prop :=
  match w with
  | [] => True
  | setUploadStatus k v :: w' =>
      v <> Some Status.idle /\ writes_ok (fun k' => Key.eqb k' k || t k') w'
  | setParsedData o :: w' =>
      (forall k, JS.truthy (get k o) = true -> t k = true) /\ writes_ok t w'
  | setParsedDataAt k v :: w' =>
      (JS.truthy v = true -> t k = true) /\ writes_ok t w'
  | _ :: w' => writes_ok t w'
  end.

Definition live_inv (l : live) : Prop :=
  payload_needs_status (now l)
  /\ (forall r, In r (renders l) ->
                payload_needs_status r
                /\ forall k, left_idle r k = true -> left_idle (now l) k = true)
  /\ (forall w, In w (inflight l) -> writes_ok (left_idle (now l)) w).

(** ** The application shell around the wizard *)

Module AppShell.

(** [fundData?.asset_allocation], [fundData?.performance]: [fundData] is
    [null] (the default) or an object with the wizard's two keys. *)
Definition member (k : Key.t) (fundData : option (slots JS.value)) : JS.value :=
  match fundData with
  | Some o => get k o
  | None => JS.Undefined
  end.

(** [a || b] *)
Definition or (a b : JS.value) : JS.value := if JS.truthy a then a else b.

(** [const hasData = fundData?.asset_allocation || fundData?.performance] *)
Definition hasData (fundData : option (slots JS.value)) : JS.value :=
  or (member Key.asset_allocation fundData) (member Key.performance fundData).

(** [const isComplete = fundData?.asset_allocation && fundData?.performance] *)
Definition isComplete (fundData : option (slots JS.value)) : JS.value :=
  JS.and (member Key.asset_allocation fundData)
         (member Key.performance fundData).

(** The heading of [FundContextHeader]. *)
Definition heading (fundData : option (slots JS.value)) : string :=
  if JS.truthy (hasData fundData) then "Portfolio Analysis"
  else "Pending Fund Data".

Record state_style : Type := mk_style
  { label : string; color : string; bg : string; border : string }.

Definition awaiting : state_style :=
  mk_style "Awaiting Documents" "text-amber-400" "bg-amber-500/10"
           "border-amber-500/20".
Definition processing : state_style :=
  mk_style "Processing" "text-blue-400" "bg-blue-500/10" "border-blue-500/20".
Definition ready : state_style :=
  mk_style "Analysis Ready" "text-emerald-400" "bg-emerald-500/10"
           "border-emerald-500/20".

(** The own properties of the [states] object literal. *)
Definition states : list (string * state_style) :=
  [("awaiting", awaiting); ("processing", processing); ("ready", ready)].

(** The property names an object literal inherits from [Object.prototype];
    each of them reads as a function or object, hence truthy, that has
    none of the four style members. *)
Definition Object_prototype_names : list string :=
  ["constructor"; "hasOwnProperty"; "isPrototypeOf"; "propertyIsEnumerable";
   "toLocaleString"; "toString"; "valueOf"; "__proto__";
   "__defineGetter__"; "__defineSetter__"; "__lookupGetter__";
   "__lookupSetter__"].

(** The value of [states[state]]. *)
Inductive looked_up : Type :=
| Own (st : state_style)
| Inherited
| Missing.

Definition lookup (state : string) : looked_up :=
  match find (fun kv => fst kv =? state) states with
  | Some kv => Own (snd kv)
  | None =>
      if existsb (fun n => n =? state) Object_prototype_names
      then Inherited else Missing
  end.

(** [isComplete ? states.ready : states[state] || states.awaiting] *)
Definition currentState (state : string) (isComplete : JS.value) : looked_up :=
  if JS.truthy isComplete then Own ready
  else match lookup state with
       | Missing => Own awaiting
       | found => found
       end.

(** [currentState.label]; [None] is [undefined]. *)
Definition indicator_label (state : string) (isComplete : JS.value)
    : option string :=
  match currentState state isComplete with
  | Own st => Some (label st)
  | Inherited | Missing => None
  end.

(** The class of the dot beside the label. *)
Definition indicator_dot (isComplete : JS.value) : string :=
  if JS.truthy isComplete then "bg-emerald-400"
  else "bg-amber-400 animate-pulse".

End AppShell.

(** * Properties *)

(** ** Slots, steps and the small JavaScript fragment *)

Lemma get_set_same {A} (k : Key.t) (v : A) (o : slots A) :
  get k (set k v o) = v.
Proof. destruct k; reflexivity. Qed.

Lemma get_set_other {A} (k : Key.t) (v : A) (o : slots A) :
  get (Key.other k) (set k v o) = get (Key.other k) o.
Proof. destruct k; reflexivity. Qed.

Lemma set_set {A} (k : Key.t) (v v' : A) (o : slots A) :
  set k v (set k v' o) = set k v o.
Proof. destruct k; reflexivity. Qed.

Lemma set_swap {A} (k : Key.t) (v v' : A) (o : slots A) :
  set k v (set (Key.other k) v' o) = set (Key.other k) v' (set k v o).
Proof. destruct k; reflexivity. Qed.

Lemma key_cases (k k' : Key.t) : k' = k \/ k' = Key.other k.
Proof. destruct k, k'; auto. Qed.

Lemma step_of_key (k : Key.t) : exists st, step_of k = Some st /\ key st = k.
Proof. destruct k; eexists; split; reflexivity. Qed.

Lemma insufficient_long (t : string) :
  100 <= String.length t -> insufficient (Some t) = false.
Proof.
  intros H. unfold insufficient, JS.truthy_str.
  destruct t as [|c t]; [simpl in H; lia|].
  replace (String c t =? "") with false by reflexivity.
  simpl negb. rewrite orb_false_l. apply Nat.ltb_ge. exact H.
Qed.

Lemma insufficient_short (t : string) :
  String.length t <= 99 -> insufficient (Some t) = true.
Proof.
  intros H. unfold insufficient.
  replace (String.length t <? 100)%nat with true;
    [apply orb_true_r | symmetry; apply Nat.ltb_lt; lia].
Qed.

Lemma type_differs_true (t : option string) (expected : string) :
  type_differs t expected = true <-> t <> Some expected.
Proof.
  destruct t as [s|]; simpl.
  - rewrite negb_true_iff. split.
    + intros H E. injection E as ->. now rewrite String.eqb_refl in H.
    + intros H. apply String.eqb_neq. congruence.
  - split; [discriminate | reflexivity].
Qed.

Lemma type_differs_same (expected : string) :
  type_differs (Some expected) expected = false.
Proof. simpl. now rewrite String.eqb_refl. Qed.

Lemma truthy_str_true (o : option string) :
  JS.truthy_str o = true <-> exists msg, o = Some msg /\ msg <> "".
Proof.
  destruct o as [s|]; simpl.
  - rewrite negb_true_iff. split.
    + intros H. exists s. split; [reflexivity | now apply String.eqb_neq].
    + intros (m & E & Hm). injection E as ->. now apply String.eqb_neq.
  - split; [discriminate | intros (m & E & _); discriminate].
Qed.






Lemma notify_complete_eq (p : props) (k : Key.t) (o : slots JS.value) :
  notify_complete p k o
  = when (onComplete p && JS.truthy (get (Key.other k) o))
      (emit (call_onComplete o)).
Proof.
  unfold notify_complete, when.
  destruct k, (onComplete p); simpl;
    destruct (JS.truthy (asset_allocation o)), (JS.truthy (performance o));
    reflexivity.
Qed.

(** ** Folding traces *)

Lemma commit_app (s : wizard_state) (w w' : list effect) :
  commit s (w ++ w')%list = commit (commit s w) w'.
Proof. apply fold_left_app. Qed.

(** ** The trace of a handler run, case by case *)

Section Runs.

Variable p : props.
Variable env : collaborators.

Lemma handleFileUpload_selection s file error k :
  JS.truthy_str error = true ->
  handleFileUpload p env s file error k
  = ([setErrors k error; setUploadStatus k (Some Status.error)], inr tt).
Proof. intros H. unfold handleFileUpload. rewrite H. reflexivity. Qed.

Lemma handleFileUpload_no_file s error k :
  JS.truthy_str error = false ->
  handleFileUpload p env s None error k = ([], inr tt).
Proof. intros H. unfold handleFileUpload. rewrite H. reflexivity. Qed.

Lemma handleFileUpload_extract_throws s f error k err :
  JS.truthy_str error = false ->
  extractTextFromPDF env f = inl err ->
  handleFileUpload p env s (Some f) error k
  = ([setUploadStatus k (Some Status.processing); setErrors k None;
      call_extractTextFromPDF f;
      setErrors k (Some (JS.message err));
      setUploadStatus k (Some Status.error)], inr tt).
Proof.
  intros H E. unfold handleFileUpload, process. rewrite H, E. reflexivity.
Qed.

Lemma handleFileUpload_extract_short s f error k e :
  JS.truthy_str error = false ->
  extractTextFromPDF env f = inr e ->
  insufficient (fullText e) = true ->
  handleFileUpload p env s (Some f) error k
  = ([setUploadStatus k (Some Status.processing); setErrors k None;
      call_extractTextFromPDF f;
      setErrors k (Some extraction_message);
      setUploadStatus k (Some Status.error)], inr tt).
Proof.
  intros H E I. unfold handleFileUpload, process. rewrite H, E.
  cbn [await bind emit fst snd app]. rewrite I. reflexivity.
Qed.

Lemma handleFileUpload_identify_throws s f error k e t err :
  JS.truthy_str error = false ->
  extractTextFromPDF env f = inr e ->
  fullText e = Some t -> 100 <= String.length t ->
  identifyReportType env t = inl err ->
  handleFileUpload p env s (Some f) error k
  = ([setUploadStatus k (Some Status.processing); setErrors k None;
      call_extractTextFromPDF f; call_identifyReportType t;
      setErrors k (Some (JS.message err));
      setUploadStatus k (Some Status.error)], inr tt).
Proof.
  intros H E T L I. unfold handleFileUpload, process. rewrite H, E.
  cbn [await bind emit fst snd app]. rewrite T, (insufficient_long t L), I.
  reflexivity.
Qed.

Lemma handleFileUpload_mismatch s f error k e t i st :
  JS.truthy_str error = false ->
  extractTextFromPDF env f = inr e ->
  fullText e = Some t -> 100 <= String.length t ->
  identifyReportType env t = inr i ->
  step_of k = Some st ->
  type_of i <> Some (expectedType st) ->
  handleFileUpload p env s (Some f) error k
  = ([setUploadStatus k (Some Status.processing); setErrors k None;
      call_extractTextFromPDF f; call_identifyReportType t;
      setErrors k
        (Some (mismatch_message
                 (JS.or_str (name_of i) "Unknown report type") (title st)));
      setUploadStatus k (Some Status.error)], inr tt).
Proof.
  intros H E T L I S D. apply type_differs_true in D.
  unfold handleFileUpload, process. rewrite H, E.
  cbn [await bind emit fst snd app]. rewrite T, (insufficient_long t L), I.
  cbn [when await bind ret emit fst snd app]. rewrite S, D. reflexivity.
Qed.

Lemma handleFileUpload_parse_throws s f error k e t i st err :
  JS.truthy_str error = false ->
  extractTextFromPDF env f = inr e ->
  fullText e = Some t -> 100 <= String.length t ->
  identifyReportType env t = inr i ->
  step_of k = Some st ->
  type_of i = Some (expectedType st) ->
  parseReport env e = inl err ->
  handleFileUpload p env s (Some f) error k
  = ([setUploadStatus k (Some Status.processing); setErrors k None;
      call_extractTextFromPDF f; call_identifyReportType t;
      call_parseReport e;
      setErrors k (Some (JS.message err));
      setUploadStatus k (Some Status.error)], inr tt).
Proof.
  intros H E T L I S D P.
  unfold handleFileUpload, process. rewrite H, E.
  cbn [await bind emit fst snd app]. rewrite T, (insufficient_long t L), I.
  cbn [when await bind ret emit fst snd app].
  rewrite S, D, type_differs_same.
  cbn [when await bind ret emit fst snd app]. rewrite P. reflexivity.
Qed.

Lemma handleFileUpload_parsed s f error k e t i st pr :
  JS.truthy_str error = false ->
  extractTextFromPDF env f = inr e ->
  fullText e = Some t -> 100 <= String.length t ->
  identifyReportType env t = inr i ->
  step_of k = Some st ->
  type_of i = Some (expectedType st) ->
  parseReport env e = inr pr ->
  handleFileUpload p env s (Some f) error k
  = ([setUploadStatus k (Some Status.processing); setErrors k None;
      call_extractTextFromPDF f; call_identifyReportType t;
      call_parseReport e;
      setParsedData (set k (data pr) (parsedData s));
      setUploadStatus k (Some Status.success)]
     ++ (if onPartialData p then [call_onPartialData k (data pr)] else [])
     ++ (if (currentStep s <? List.length STEPS)%nat
         then [setTimeout 500 (currentStep s + 1)] else [])
     ++ (if onComplete p && JS.truthy (get (Key.other k) (parsedData s))
         then [call_onComplete (set k (data pr) (parsedData s))] else []),
     inr tt)%list.
Proof.
  intros H E T L I S D P.
  unfold handleFileUpload, process. rewrite H, E.
  cbn [await bind emit fst snd app]. rewrite T, (insufficient_long t L), I.
  cbn [when await bind ret emit fst snd app].
  rewrite S, D, type_differs_same.
  cbn [when await bind ret emit fst snd app]. rewrite P.
  rewrite notify_complete_eq, get_set_other. unfold when.
  destruct (onPartialData p), (currentStep s <? List.length STEPS)%nat,
    (onComplete p && JS.truthy (get (Key.other k) (parsedData s)));
    reflexivity.
Qed.

End Runs.

(** ** The state after a run *)

Section Steps.

Variable p : props.
Variable env : collaborators.

Lemma insufficient_false (ft : option string) :
  insufficient ft = false ->
  exists t, ft = Some t /\ 100 <= String.length t.
Proof.
  unfold insufficient. intros H. apply orb_false_elim in H as [_ H].
  destruct ft as [t|]; [|discriminate].
  exists t. split; [reflexivity | now apply Nat.ltb_ge].
Qed.

(** A submission with a file and no selection error succeeds, fails in
    one of the four ways, or dies in the identifier. *)
Lemma submission_cases (f : File) (error : option string) (k : Key.t) :
  JS.truthy_str error = false ->
  (exists d, succeeds env f k d)
  \/ (exists kind msg, fails env (Some f) error k kind msg)
  \/ (exists e t err,
        extractTextFromPDF env f = inr e /\ fullText e = Some t
        /\ 100 <= String.length t /\ identifyReportType env t = inl err).
Proof.
  intros He.
  destruct (extractTextFromPDF env f) as [err|e] eqn:E.
  { right; left. exists ExtractionFailure, (JS.message err).
    now apply fails_extract_throws with (f := f). }
  destruct (insufficient (fullText e)) eqn:I.
  { right; left. exists ExtractionFailure, extraction_message.
    now apply fails_extract_short with (f := f) (e := e). }
  apply insufficient_false in I as (t & T & L).
  destruct (identifyReportType env t) as [err|i] eqn:Id.
  { right; right. now exists e, t, err. }
  destruct (step_of_key k) as (st & S & _).
  destruct (type_differs (type_of i) (expectedType st)) eqn:D.
  { right; left. apply type_differs_true in D.
    exists TypeMismatch. eexists.
    now apply fails_mismatch with (f := f) (e := e) (t := t) (i := i) (st := st). }
  assert (D' : type_of i = Some (expectedType st)).
  { destruct (type_of i) as [x|]; [|discriminate]. simpl in D.
    apply negb_false_iff, String.eqb_eq in D. now subst. }
  destruct (parseReport env e) as [err|pr] eqn:P.
  - right; left. exists ParseFailure, (JS.message err).
    now apply fails_parse with (f := f) (e := e) (t := t) (i := i) (st := st).
  - left. exists (data pr).
    now apply succeeds_intro with (e := e) (t := t) (i := i) (st := st) (pr := pr).
Qed.

Lemma run_failure s file error k kind msg :
  fails env file error k kind msg ->
  run_op p env s (submitFile k file error)
  = mk_state (currentStep s)
      (set k (Some Status.error) (uploadStatus s))
      (parsedData s)
      (set k (Some msg) (errors s)).
Proof.
  intros F. unfold run_op, trace, dispatch.
  destruct F as [msg E N | f err He Hf E | f e He Hf E I
                | f e t i st He Hf E T L I S D
                | f e t i st err He Hf E T L I S D P]; subst.
  - rewrite handleFileUpload_selection
      by (apply truthy_str_true; now exists msg).
    destruct k, s; reflexivity.
  - rewrite (handleFileUpload_extract_throws p env s f error k err He E).
    destruct k, s; reflexivity.
  - rewrite (handleFileUpload_extract_short p env s f error k e He E I).
    destruct k, s; reflexivity.
  - rewrite (handleFileUpload_mismatch p env s f error k e t i st
               He E T L I S D).
    destruct k, s; reflexivity.
  - rewrite (handleFileUpload_parse_throws p env s f error k e t i st err
               He E T L I S D P).
    destruct k, s; reflexivity.
Qed.

Lemma run_identify_throws s f error k e t err :
  JS.truthy_str error = false ->
  extractTextFromPDF env f = inr e ->
  fullText e = Some t -> 100 <= String.length t ->
  identifyReportType env t = inl err ->
  run_op p env s (submitFile k (Some f) error)
  = mk_state (currentStep s)
      (set k (Some Status.error) (uploadStatus s))
      (parsedData s)
      (set k (Some (JS.message err)) (errors s)).
Proof.
  intros He E T L I. unfold run_op, trace, dispatch.
  rewrite (handleFileUpload_identify_throws p env s f error k e t err
             He E T L I).
  destruct k, s; reflexivity.
Qed.

Lemma run_success s f error k d :
  JS.truthy_str error = false ->
  succeeds env f k d ->
  run_op p env s (submitFile k (Some f) error)
  = mk_state
      (if (currentStep s <? List.length STEPS)%nat
       then currentStep s + 1 else currentStep s)
      (set k (Some Status.success) (uploadStatus s))
      (set k d (parsedData s))
      (set k None (errors s)).
Proof.
  intros He [e t i st pr E T L I S D P <-]. unfold run_op, trace, dispatch.
  rewrite (handleFileUpload_parsed p env s f error k e t i st pr
             He E T L I S D P).
  cbn [fst]. rewrite !commit_app.
  destruct (onPartialData p),
    (onComplete p && JS.truthy (get (Key.other k) (parsedData s))),
    (currentStep s <? List.length STEPS)%nat, k, s; reflexivity.
Qed.

Lemma run_no_file s error k :
  JS.truthy_str error = false ->
  run_op p env s (submitFile k None error) = s.
Proof.
  intros He. unfold run_op, trace, dispatch.
  rewrite handleFileUpload_no_file by exact He. now destruct s.
Qed.

Lemma run_reset s k :
  run_op p env s (resetSlot k)
  = mk_state (currentStep s)
      (set k None (uploadStatus s))
      (set k JS.Null (parsedData s))
      (set k None (errors s)).
Proof. destruct k, s; reflexivity. Qed.

Lemma run_select s n :
  run_op p env s (selectStep n)
  = mk_state n (uploadStatus s) (parsedData s) (errors s).
Proof. reflexivity. Qed.

Lemma run_op_slot (s : wizard_state) (o : op) (k : Key.t) :
  slot_change env s (run_op p env s o) k.
Proof.
  destruct o as [k0 file error | k0 | n].
  - destruct (JS.truthy_str error) eqn:He.
    + pose proof He as Ht. apply truthy_str_true in Ht as (msg & -> & N).
      rewrite (run_failure s file (Some msg) k0 SelectionError msg)
        by now constructor.
      destruct (key_cases k0 k) as [-> | ->].
      * apply slot_failed with (msg := msg); cbn [uploadStatus parsedData errors];
          now rewrite ?get_set_same.
      * apply slot_kept; cbn [uploadStatus parsedData errors];
          now rewrite ?get_set_other.
    + destruct file as [f|]; [|rewrite run_no_file by exact He; now apply slot_kept].
      destruct (submission_cases f error k0 He)
        as [(d & Hs) | [(kind & msg & Hf) | (e & t & err & E & T & L & I)]].
      * rewrite (run_success s f error k0 d He Hs).
        destruct (key_cases k0 k) as [-> | ->].
        -- destruct Hs as [e t i st pr E T L I S D P <-].
           apply slot_parsed with (e := e) (pr := pr);
             cbn [uploadStatus parsedData errors];
             rewrite ?get_set_same; auto.
        -- apply slot_kept; cbn [uploadStatus parsedData errors];
             now rewrite ?get_set_other.
      * rewrite (run_failure s (Some f) error k0 kind msg Hf).
        destruct (key_cases k0 k) as [-> | ->].
        -- apply slot_failed with (msg := msg);
             cbn [uploadStatus parsedData errors]; now rewrite ?get_set_same.
        -- apply slot_kept; cbn [uploadStatus parsedData errors];
             now rewrite ?get_set_other.
      * rewrite (run_identify_throws s f error k0 e t err He E T L I).
        destruct (key_cases k0 k) as [-> | ->].
        -- apply slot_failed with (msg := JS.message err);
             cbn [uploadStatus parsedData errors]; now rewrite ?get_set_same.
        -- apply slot_kept; cbn [uploadStatus parsedData errors];
             now rewrite ?get_set_other.
  - rewrite run_reset. destruct (key_cases k0 k) as [-> | ->].
    + apply slot_cleared; cbn [uploadStatus parsedData errors];
        now rewrite ?get_set_same.
    + apply slot_kept; cbn [uploadStatus parsedData errors];
        now rewrite ?get_set_other.
  - rewrite run_select. now apply slot_kept.
Qed.

End Steps.

(** ** What a run lets the outside see *)

Section Observations.

Variable p : props.
Variable env : collaborators.

Lemma onComplete_payloads_app (w w' : list effect) :
  onComplete_payloads (w ++ w')%list
  = (onComplete_payloads w ++ onComplete_payloads w')%list.
Proof. apply flat_map_app. Qed.

Lemma onPartialData_calls_app (w w' : list effect) :
  onPartialData_calls (w ++ w')%list
  = (onPartialData_calls w ++ onPartialData_calls w')%list.
Proof. apply flat_map_app. Qed.

Lemma quiet_no_calls (w : list effect) :
  filter is_notification w = [] ->
  onComplete_payloads w = [] /\ onPartialData_calls w = [].
Proof.
  induction w as [|e w IH]; [now split|].
  destruct e; cbn; try discriminate; exact IH.
Qed.

(** Nothing thrown inside a run gets past the handler. *)
Lemma handleFileUpload_returns s file error k :
  snd (handleFileUpload p env s file error k) = inr tt.
Proof.
  destruct (JS.truthy_str error) eqn:He.
  { now rewrite handleFileUpload_selection. }
  destruct file as [f|]; [|now rewrite handleFileUpload_no_file].
  destruct (extractTextFromPDF env f) as [err|e] eqn:E.
  { now rewrite (handleFileUpload_extract_throws p env s f error k err). }
  destruct (insufficient (fullText e)) eqn:I.
  { now rewrite (handleFileUpload_extract_short p env s f error k e). }
  apply insufficient_false in I as (t & T & L).
  destruct (identifyReportType env t) as [err|i] eqn:Id.
  { now rewrite (handleFileUpload_identify_throws p env s f error k e t err). }
  destruct (step_of_key k) as (st & S & _).
  destruct (type_differs (type_of i) (expectedType st)) eqn:D.
  { apply type_differs_true in D.
    now rewrite (handleFileUpload_mismatch p env s f error k e t i st). }
  assert (D' : type_of i = Some (expectedType st)).
  { destruct (type_of i) as [x|]; [|discriminate]. simpl in D.
    apply negb_false_iff, String.eqb_eq in D. now subst. }
  destruct (parseReport env e) as [err|pr] eqn:P.
  - now rewrite (handleFileUpload_parse_throws p env s f error k e t i st err).
  - now rewrite (handleFileUpload_parsed p env s f error k e t i st pr).
Qed.

Lemma dispatch_returns s o : snd (dispatch p env s o) = inr tt.
Proof.
  destruct o as [k file error | k | n]; cbn [dispatch];
    [apply handleFileUpload_returns | reflexivity | reflexivity].
Qed.

Lemma trace_failure_quiet s file error k kind msg :
  fails env file error k kind msg ->
  filter is_notification (trace p env s (submitFile k file error)) = [].
Proof.
  intros F. unfold trace, dispatch.
  destruct F as [msg E N | f err He Hf E | f e He Hf E I
                | f e t i st He Hf E T L I S D
                | f e t i st err He Hf E T L I S D P]; subst.
  - now rewrite handleFileUpload_selection
      by (apply truthy_str_true; now exists msg).
  - now rewrite (handleFileUpload_extract_throws p env s f error k err He E).
  - now rewrite (handleFileUpload_extract_short p env s f error k e He E I).
  - now rewrite (handleFileUpload_mismatch p env s f error k e t i st
                   He E T L I S D).
  - now rewrite (handleFileUpload_parse_throws p env s f error k e t i st err
                   He E T L I S D P).
Qed.

Lemma trace_success_onComplete s f error k d :
  JS.truthy_str error = false ->
  succeeds env f k d ->
  onComplete_payloads (trace p env s (submitFile k (Some f) error))
  = if onComplete p && JS.truthy (get (Key.other k) (parsedData s))
    then [set k d (parsedData s)] else [].
Proof.
  intros He [e t i st pr E T L I S D P <-]. unfold trace, dispatch.
  rewrite (handleFileUpload_parsed p env s f error k e t i st pr
             He E T L I S D P).
  cbn [fst]. rewrite !onComplete_payloads_app.
  destruct (onPartialData p),
    (onComplete p && JS.truthy (get (Key.other k) (parsedData s))),
    (currentStep s <? List.length STEPS)%nat; reflexivity.
Qed.

Lemma trace_success_onPartialData s f error k d :
  JS.truthy_str error = false ->
  succeeds env f k d ->
  onPartialData_calls (trace p env s (submitFile k (Some f) error))
  = if onPartialData p then [(k, d)] else [].
Proof.
  intros He [e t i st pr E T L I S D P <-]. unfold trace, dispatch.
  rewrite (handleFileUpload_parsed p env s f error k e t i st pr
             He E T L I S D P).
  cbn [fst]. rewrite !onPartialData_calls_app.
  destruct (onPartialData p),
    (onComplete p && JS.truthy (get (Key.other k) (parsedData s))),
    (currentStep s <? List.length STEPS)%nat; reflexivity.
Qed.

(** Only a submission that [succeeds] notifies anybody. *)
Lemma trace_quiet_or_success s o :
  filter is_notification (trace p env s o) = []
  \/ exists k f error d,
       o = submitFile k (Some f) error
       /\ JS.truthy_str error = false /\ succeeds env f k d.
Proof.
  destruct o as [k file error | k | n]; [|now left|now left].
  destruct (JS.truthy_str error) eqn:He.
  { left. unfold trace, dispatch. now rewrite handleFileUpload_selection. }
  destruct file as [f|].
  { destruct (submission_cases env f error k He)
      as [(d & Hs) | [(kind & msg & Hf) | (e & t & err & E & T & L & I)]].
    - right. now exists k, f, error, d.
    - left. eapply trace_failure_quiet; eassumption.
    - left. unfold trace, dispatch.
      now rewrite (handleFileUpload_identify_throws p env s f error k e t err). }
  left. unfold trace, dispatch. now rewrite handleFileUpload_no_file.
Qed.

End Observations.

(** ** Completeness and reachable states *)

Lemma is_complete_andb (s : wizard_state) :
  is_complete s
  = JS.truthy (asset_allocation (parsedData s))
    && JS.truthy (performance (parsedData s)).
Proof.
  unfold is_complete, isComplete, JS.and.
  destruct (JS.truthy (asset_allocation (parsedData s))) eqn:A; simpl;
    [reflexivity | exact A].
Qed.

Lemma is_complete_slots (s : wizard_state) :
  is_complete s = true <-> forall k, JS.truthy (get k (parsedData s)) = true.
Proof.
  rewrite is_complete_andb, andb_true_iff. split.
  - intros [A B] k. now destruct k.
  - intros H. split;
      [apply (H Key.asset_allocation) | apply (H Key.performance)].
Qed.

Lemma all_success_slots (s : wizard_state) :
  all_success s = true
  <-> forall k, get k (uploadStatus s) = Some Status.success.
Proof.
  unfold all_success. cbn [forallb STEPS key]. rewrite andb_true_r, andb_true_iff.
  split.
  - intros [A B] k. cbn [get] in A, B. destruct k; cbn [get].
    + destruct (asset_allocation (uploadStatus s)) as [[]|];
        try discriminate; reflexivity.
    + destruct (performance (uploadStatus s)) as [[]|];
        try discriminate; reflexivity.
  - intros H. split;
      [rewrite (H Key.asset_allocation) | rewrite (H Key.performance)];
      reflexivity.
Qed.

Section Invariants.

Variable p : props.
Variable env : collaborators.

(** A slot holds an error message exactly while its status is [error]. *)
Lemma error_iff_status s :
  reachable p env s ->
  forall k, get k (errors s) <> None
            <-> get k (uploadStatus s) = Some Status.error.
Proof.
  induction 1 as [|s o R IH]; intros k.
  - destruct k; cbn; (split; [congruence | discriminate]).
  - destruct (run_op_slot p env s o k)
      as [Hs Hd He | msg Hs Hd He | e pr P Hs Hd He | Hs Hd He];
      rewrite Hs, He.
    + apply IH.
    + split; [reflexivity | discriminate].
    + split; [congruence | discriminate].
    + split; [congruence | discriminate].
Qed.

Lemma reachable_run_ops s os :
  reachable p env s -> reachable p env (run_ops p env s os).
Proof.
  revert s. induction os as [|o os IH]; intros s R; [exact R|].
  apply IH. now constructor.
Qed.

End Invariants.

(** A new upload attempt opens by marking the slot [processing] and
    clearing its error; nothing touches [parsedData] at that point. *)
Lemma trace_opening (p : props) (env : collaborators) (s : wizard_state)
    (f : File) (error : option string) (k : Key.t) :
  JS.truthy_str error = false ->
  exists rest,
    trace p env s (submitFile k (Some f) error)
    = setUploadStatus k (Some Status.processing) :: setErrors k None :: rest.
Proof.
  intros He. unfold trace, dispatch, handleFileUpload. rewrite He.
  destruct (try_catch (process p env s f k)
              (fun err =>
                 emit (setErrors k (Some (JS.message err))) ;;
                 emit (setUploadStatus k (Some Status.error)))) as [w r].
  exists w. reflexivity.
Qed.

(** ** The sample files go through *)

Lemma sample_allocation_succeeds :
  succeeds Sample.env Sample.allocation_pdf Key.asset_allocation
    Sample.allocation_data.
Proof.
  eapply succeeds_intro with (t := Sample.allocation_text);
    try reflexivity.
  vm_compute. repeat constructor.
Defined.

Lemma sample_movement_succeeds :
  succeeds Sample.env Sample.movement_pdf Key.performance Sample.movement_data.
Proof.
  eapply succeeds_intro with (t := Sample.movement_text);
    try reflexivity.
  vm_compute. repeat constructor.
Defined.

(** ** Two runs of the sample installation *)

(** A performance report dropped on the allocation slot: the slot ends in
    [error], nothing is parsed and nobody is notified. *)
Example wrong_report_on_allocation_slot :
  let o := submitFile Key.asset_allocation (Some Sample.movement_pdf) None in
  let s := run_op Sample.both Sample.env initial o in
  get Key.asset_allocation (uploadStatus s) = Some Status.error
  /\ get Key.asset_allocation (errors s)
     = Some "This appears to be a Performance Report. Please upload a Asset Allocation Report for this step."
  /\ filter is_notification (trace Sample.both Sample.env initial o) = []
  /\ count is_parseReport (trace Sample.both Sample.env initial o) = 0.
Proof. vm_compute. repeat split. Qed.

(** The allocation report, then the performance report: two partial-data
    calls, one completion call carrying both payloads, both slots [success]. *)
Example both_reports_in_turn :
  let os := [submitFile Key.asset_allocation (Some Sample.allocation_pdf) None;
             submitFile Key.performance (Some Sample.movement_pdf) None] in
  let w := trace_ops Sample.both Sample.env initial os in
  onPartialData_calls w
  = [(Key.asset_allocation, Sample.allocation_data);
     (Key.performance, Sample.movement_data)]
  /\ onComplete_payloads w
     = [mk_slots Sample.allocation_data Sample.movement_data]
  /\ uploadStatus (run_ops Sample.both Sample.env initial os)
     = mk_slots (Some Status.success) (Some Status.success).
Proof. vm_compute. repeat split. Qed.

(** * The claims *)

(** C10.  A [submitFile] with a null file and no selection error does
    nothing: the session state is the one it started from, the run produces
    no effect at all (no state update, no call to the extractor, identifier or
    parser, no notification), and it returns normally. *)
Theorem submit_null_file_is_noop
    (p : props) (env : collaborators) (s : wizard_state) (k : Key.t)
    (error : option string) :
  JS.truthy_str error = false ->
  run_op p env s (submitFile k None error) = s
  /\ trace p env s (submitFile k None error) = []
  /\ count is_collaborator_call (trace p env s (submitFile k None error)) = 0
  /\ count is_notification (trace p env s (submitFile k None error)) = 0
  /\ snd (dispatch p env s (submitFile k None error)) = inr tt.
Proof.
  intros He. split; [now apply run_no_file|].
  unfold trace, dispatch. rewrite handleFileUpload_no_file by exact He.
  repeat split.
Qed.

Lemma submit_null_file_is_noop_witness :
  let s := run_op Sample.both Sample.env initial
             (submitFile Key.asset_allocation (Some Sample.allocation_pdf) None) in
  JS.truthy_str None = false
  /\ run_op Sample.both Sample.env s (submitFile Key.performance None None) = s
  /\ trace Sample.both Sample.env s (submitFile Key.performance None None) = [].
Proof.
  intros s. split; [reflexivity|].
  pose proof (submit_null_file_is_noop Sample.both Sample.env s
                Key.performance None eq_refl) as (H1 & H2 & _).
  split; [exact H1 | exact H2].
Defined.

(** C7.  When extraction yields at least 100 characters, the identified type
    is the slot's expected type and the parser returns, the slot ends in
    [success] with [parsedData] equal to the parser's [data], and
    [onPartialData] is called exactly once, with that slot key and payload. *)
Theorem valid_submission_succeeds
    (p : props) (env : collaborators) (s : wizard_state) (f : File)
    (error : option string) (k : Key.t) (d : JS.value) :
  onPartialData p = true ->
  JS.truthy_str error = false ->
  succeeds env f k d ->
  let o := submitFile k (Some f) error in
  get k (uploadStatus (run_op p env s o)) = Some Status.success
  /\ get k (parsedData (run_op p env s o)) = d
  /\ get k (errors (run_op p env s o)) = None
  /\ onPartialData_calls (trace p env s o) = [(k, d)].
Proof.
  intros Hp He Hs o. subst o.
  rewrite (run_success p env s f error k d He Hs).
  cbn [uploadStatus parsedData errors]. rewrite !get_set_same.
  rewrite (trace_success_onPartialData p env s f error k d He Hs), Hp.
  repeat split.
Qed.

Lemma valid_submission_succeeds_witness :
  let o := submitFile Key.asset_allocation (Some Sample.allocation_pdf) None in
  get Key.asset_allocation (parsedData (run_op Sample.both Sample.env initial o))
  = Sample.allocation_data
  /\ onPartialData_calls (trace Sample.both Sample.env initial o)
     = [(Key.asset_allocation, Sample.allocation_data)].
Proof.
  intros o.
  pose proof (valid_submission_succeeds Sample.both Sample.env initial
                Sample.allocation_pdf None Key.asset_allocation
                Sample.allocation_data eq_refl eq_refl
                sample_allocation_succeeds) as (_ & H2 & _ & H4).
  split; [exact H2 | exact H4].
Defined.

(** C6.  The extraction floor sits at 100 characters: with a [fullText] of
    length 99 or less the slot ends in [error] with the extraction-failure
    message and the identifier is not called; with a [fullText] of length 100
    or more the identifier is called on that text. *)
Theorem extraction_floor
    (p : props) (env : collaborators) (s : wizard_state) (f : File)
    (error : option string) (k : Key.t) (e : extracted) (t : string) :
  JS.truthy_str error = false ->
  extractTextFromPDF env f = inr e ->
  fullText e = Some t ->
  let o := submitFile k (Some f) error in
  (String.length t <= 99 ->
     get k (uploadStatus (run_op p env s o)) = Some Status.error
     /\ get k (errors (run_op p env s o)) = Some extraction_message
     /\ count is_identifyReportType (trace p env s o) = 0)
  /\ (100 <= String.length t ->
        In (call_identifyReportType t) (trace p env s o)).
Proof.
  intros He E T o. subst o. split; intros L.
  - assert (I : insufficient (fullText e) = true)
      by (rewrite T; now apply insufficient_short).
    rewrite (run_failure p env s (Some f) error k ExtractionFailure
               extraction_message)
      by now apply fails_extract_short with (f := f) (e := e).
    cbn [uploadStatus errors]. rewrite !get_set_same.
    unfold trace, dispatch.
    rewrite (handleFileUpload_extract_short p env s f error k e He E I).
    repeat split.
  - unfold trace, dispatch.
    destruct (identifyReportType env t) as [err|i] eqn:Id.
    { rewrite (handleFileUpload_identify_throws p env s f error k e t err
                 He E T L Id). cbn. tauto. }
    destruct (step_of_key k) as (st & S & _).
    destruct (type_differs (type_of i) (expectedType st)) eqn:D.
    { apply type_differs_true in D.
      rewrite (handleFileUpload_mismatch p env s f error k e t i st
                 He E T L Id S D). cbn. tauto. }
    assert (D' : type_of i = Some (expectedType st)).
    { destruct (type_of i) as [x|]; [|discriminate]. simpl in D.
      apply negb_false_iff, String.eqb_eq in D. now subst. }
    destruct (parseReport env e) as [err|pr] eqn:P.
    + rewrite (handleFileUpload_parse_throws p env s f error k e t i st err
                 He E T L Id S D' P). cbn. tauto.
    + rewrite (handleFileUpload_parsed p env s f error k e t i st pr
                 He E T L Id S D' P). cbn. tauto.
Qed.

Lemma extraction_floor_witness :
  let below := submitFile Key.performance (Some Sample.scan_pdf) None in
  let at_floor := submitFile Key.performance (Some Sample.memo_pdf) None in
  (String.length (Sample.filler 99) = 99
   /\ get Key.performance (errors (run_op Sample.both Sample.env initial below))
      = Some extraction_message
   /\ count is_identifyReportType (trace Sample.both Sample.env initial below) = 0)
  /\ (String.length (Sample.filler 100) = 100
      /\ In (call_identifyReportType (Sample.filler 100))
           (trace Sample.both Sample.env initial at_floor)).
Proof.
  intros below at_floor. split.
  - split; [reflexivity|].
    pose proof (extraction_floor Sample.both Sample.env initial Sample.scan_pdf
                  None Key.performance
                  (mk_extracted (Some (Sample.filler 99))) (Sample.filler 99)
                  eq_refl eq_refl eq_refl) as [H _].
    assert (L : String.length (Sample.filler 99) <= 99)
      by (vm_compute; repeat constructor).
    destruct (H L) as (_ & H2 & H3). split; [exact H2 | exact H3].
  - split; [reflexivity|].
    pose proof (extraction_floor Sample.both Sample.env initial Sample.memo_pdf
                  None Key.performance
                  (mk_extracted (Some (Sample.filler 100))) (Sample.filler 100)
                  eq_refl eq_refl eq_refl) as [_ H].
    apply H. vm_compute. repeat constructor.
Defined.



(** C9.  Each of the four failure kinds (selection error, extraction
    failure, type mismatch, parse failure) is handled inside the handler: the
    slot ends in [error] with the failure's message recorded, the handler
    returns normally, and the other slot's status, parsed data and error are
    what they were. *)
Theorem failures_are_local
    (p : props) (env : collaborators) (s : wizard_state)
    (file : option File) (error : option string) (k : Key.t)
    (kind : failure_kind) (msg : string) :
  fails env file error k kind msg ->
  let o := submitFile k file error in
  let s' := run_op p env s o in
  get k (uploadStatus s') = Some Status.error
  /\ get k (errors s') = Some msg
  /\ snd (dispatch p env s o) = inr tt
  /\ get (Key.other k) (uploadStatus s') = get (Key.other k) (uploadStatus s)
  /\ get (Key.other k) (parsedData s') = get (Key.other k) (parsedData s)
  /\ get (Key.other k) (errors s') = get (Key.other k) (errors s).
Proof.
  intros F o s'. subst s' o.
  rewrite (run_failure p env s file error k kind msg F).
  cbn [uploadStatus parsedData errors].
  rewrite !get_set_same, !get_set_other.
  repeat split. apply dispatch_returns.
Qed.

Lemma failures_are_local_witness :
  let s := run_op Sample.both Sample.env initial
             (submitFile Key.performance (Some Sample.movement_pdf) None) in
  let s' := run_op Sample.both Sample.env s
              (submitFile Key.asset_allocation (Some Sample.damaged_pdf) None) in
  get Key.asset_allocation (uploadStatus s') = Some Status.error
  /\ get Key.asset_allocation (errors s') = Some "No allocation table found"
  /\ get Key.performance (uploadStatus s') = Some Status.success
  /\ get Key.performance (parsedData s') = Sample.movement_data.
Proof.
  intros s s'.
  assert (F : fails Sample.env (Some Sample.damaged_pdf) None
                Key.asset_allocation ParseFailure "No allocation table found").
  { apply fails_parse
      with (f := Sample.damaged_pdf)
           (e := mk_extracted (Some Sample.damaged_text))
           (t := Sample.damaged_text)
           (i := Some (mk_identification (Some "asset_allocation")
                         (Some "Asset Allocation Report")))
           (st := mk_step 1 Key.asset_allocation "Asset Allocation Report"
                    "Investment Allocation PDF" "asset_allocation")
           (err := JS.new_Error "No allocation table found");
      try reflexivity. vm_compute; repeat constructor. }
  pose proof (failures_are_local Sample.both Sample.env s _ _ _ _ _ F)
    as (H1 & H2 & _ & H4 & H5 & _).
  repeat split; assumption.
Defined.

(** Completion in sequence.  Starting from a session in which neither slot
    holds a payload, when the second upload is started after the first has
    finished, completing [asset_allocation] and then [performance], or the
    other way round, calls [onComplete] exactly once in either order and with
    the same object: both slot keys mapped to their parsed payloads. *)
Theorem completion_order_independent
    (p : props) (env : collaborators) (s : wizard_state)
    (fa fp : File) (a b : JS.value) :
  onComplete p = true ->
  succeeds env fa Key.asset_allocation a ->
  succeeds env fp Key.performance b ->
  JS.truthy a = true ->
  JS.truthy b = true ->
  JS.truthy (asset_allocation (parsedData s)) = false ->
  JS.truthy (performance (parsedData s)) = false ->
  let allocation_first :=
    [submitFile Key.asset_allocation (Some fa) None;
     submitFile Key.performance (Some fp) None] in
  let performance_first :=
    [submitFile Key.performance (Some fp) None;
     submitFile Key.asset_allocation (Some fa) None] in
  onComplete_payloads (trace_ops p env s allocation_first) = [mk_slots a b]
  /\ onComplete_payloads (trace_ops p env s performance_first) = [mk_slots a b]
  /\ parsedData (run_ops p env s allocation_first) = mk_slots a b
  /\ parsedData (run_ops p env s performance_first) = mk_slots a b.
Proof.
  intros Hc Ha Hb Ta Tb Na Nb allocation_first performance_first.
  subst allocation_first performance_first.
  cbn [trace_ops run_ops fold_left].
  rewrite !app_nil_r, !onComplete_payloads_app.
  rewrite !(trace_success_onComplete p env _ fa None Key.asset_allocation a
              eq_refl Ha).
  rewrite !(trace_success_onComplete p env _ fp None Key.performance b
              eq_refl Hb).
  rewrite !(run_success p env _ fa None Key.asset_allocation a eq_refl Ha).
  rewrite !(run_success p env _ fp None Key.performance b eq_refl Hb).
  cbn [parsedData Key.other get set asset_allocation performance].
  rewrite Hc, Na, Nb, Ta, Tb. repeat split.
Qed.

Lemma completion_order_independent_witness :
  let both_payloads := mk_slots Sample.allocation_data Sample.movement_data in
  onComplete_payloads
    (trace_ops Sample.both Sample.env initial
       [submitFile Key.asset_allocation (Some Sample.allocation_pdf) None;
        submitFile Key.performance (Some Sample.movement_pdf) None])
  = [both_payloads]
  /\ onComplete_payloads
       (trace_ops Sample.both Sample.env initial
          [submitFile Key.performance (Some Sample.movement_pdf) None;
           submitFile Key.asset_allocation (Some Sample.allocation_pdf) None])
     = [both_payloads].
Proof.
  intros both_payloads.
  pose proof (completion_order_independent Sample.both Sample.env initial
                Sample.allocation_pdf Sample.movement_pdf
                Sample.allocation_data Sample.movement_data
                eq_refl sample_allocation_succeeds sample_movement_succeeds
                eq_refl eq_refl eq_refl eq_refl) as (H1 & H2 & _).
  split; [exact H1 | exact H2].
Defined.



(** C1, as stated, fails.  With both slots parsed and a selection error then
    reported for [asset_allocation], a further successful upload to
    [performance] calls [onComplete] although [isComplete] was already true
    before it ran; nor is every status [success] afterwards. *)
Lemma onComplete_without_transition :
  let s := run_ops Sample.both Sample.env initial
             [submitFile Key.asset_allocation (Some Sample.allocation_pdf) None;
              submitFile Key.performance (Some Sample.movement_pdf) None;
              submitFile Key.asset_allocation None
                (Some "Only PDF files are accepted")] in
  let o := submitFile Key.performance (Some Sample.movement_pdf) None in
  let s' := run_op Sample.both Sample.env s o in
  ~ (onComplete_payloads (trace Sample.both Sample.env s o) <> []
     <-> is_complete s = false /\ is_complete s' = true)
  /\ ~ (onComplete_payloads (trace Sample.both Sample.env s o) <> []
        <-> all_success s = false /\ all_success s' = true).
Proof.
  intros s o s'.
  assert (F : onComplete_payloads (trace Sample.both Sample.env s o) <> [])
    by (vm_compute; discriminate).
  split; intros [H _]; destruct (H F) as [X Y].
  - vm_compute in X. discriminate.
  - vm_compute in Y. discriminate.
Qed.

(** C2, as stated, fails.  After both slots have parsed, a selection error
    on one of them leaves [isComplete] true while that slot's status is
    [error]. *)
Lemma isComplete_with_failed_slot :
  ~ (forall s, reachable Sample.both Sample.env s ->
               (is_complete s = true <-> all_success s = true)).
Proof.
  intros H.
  pose (s := run_ops Sample.both Sample.env initial
               [submitFile Key.asset_allocation (Some Sample.allocation_pdf) None;
                submitFile Key.performance (Some Sample.movement_pdf) None;
                submitFile Key.asset_allocation None
                  (Some "Only PDF files are accepted")]).
  assert (R : reachable Sample.both Sample.env s)
    by (apply reachable_run_ops; constructor).
  destruct (H s R) as [X _].
  assert (C : is_complete s = true) by (vm_compute; reflexivity).
  specialize (X C). vm_compute in X. discriminate.
Qed.

(** C3, as stated, fails.  A slot that has parsed successfully keeps its
    [parsedData] when a new attempt begins, so after a failed re-upload it
    holds both a payload and an error. *)
Lemma parsedData_kept_with_error :
  let s1 := run_op Sample.both Sample.env initial
              (submitFile Key.asset_allocation (Some Sample.allocation_pdf) None) in
  let s2 := run_op Sample.both Sample.env s1
              (submitFile Key.asset_allocation (Some Sample.scan_pdf) None) in
  let entry := commit s1 [setUploadStatus Key.asset_allocation
                            (Some Status.processing);
                          setErrors Key.asset_allocation None] in
  reachable Sample.both Sample.env s2
  /\ ~ (get Key.asset_allocation (parsedData s2) = JS.Null
        \/ get Key.asset_allocation (errors s2) = None)
  /\ get Key.asset_allocation (uploadStatus entry) = Some Status.processing
  /\ get Key.asset_allocation (parsedData entry) <> JS.Null.
Proof.
  intros s1 s2 entry. split; [do 2 apply reach_step; apply reach_initial|].
  split; [intros [H|H]; vm_compute in H; discriminate|].
  split; [reflexivity | vm_compute; discriminate].
Qed.

(** C3, amended.  In every reachable state a slot holds an error exactly
    when its status is [error] (so a slot in [success] has none); a new
    upload attempt begins by setting the status to [processing] and clearing
    the error, leaving [parsedData] as it was; a reset clears both
    [parsedData] and the error. *)
Theorem error_cleared_on_attempt_both_on_reset
    (p : props) (env : collaborators) (s : wizard_state) (k : Key.t) :
  reachable p env s ->
  (get k (errors s) <> None <-> get k (uploadStatus s) = Some Status.error)
  /\ (forall f error,
        JS.truthy_str error = false ->
        let opening := [setUploadStatus k (Some Status.processing);
                        setErrors k None] in
        (exists rest,
            trace p env s (submitFile k (Some f) error) = (opening ++ rest)%list)
        /\ get k (uploadStatus (commit s opening)) = Some Status.processing
        /\ get k (errors (commit s opening)) = None
        /\ parsedData (commit s opening) = parsedData s)
  /\ get k (parsedData (run_op p env s (resetSlot k))) = JS.Null
  /\ get k (errors (run_op p env s (resetSlot k))) = None.
Proof.
  intros R. split; [now apply (error_iff_status p env s R)|]. split.
  - intros f error He opening. subst opening. split.
    + destruct (trace_opening p env s f error k He) as [rest E].
      exists rest. exact E.
    + cbn [commit fold_left apply_effect with_uploadStatus with_errors
             uploadStatus errors parsedData].
      rewrite !get_set_same. repeat split.
  - rewrite run_reset. cbn [parsedData errors]. rewrite !get_set_same.
    split; reflexivity.
Qed.

Lemma error_cleared_on_attempt_both_on_reset_witness :
  let s := run_ops Sample.both Sample.env initial
             [submitFile Key.asset_allocation (Some Sample.allocation_pdf) None;
              submitFile Key.asset_allocation (Some Sample.scan_pdf) None] in
  reachable Sample.both Sample.env s
  /\ get Key.asset_allocation (errors s) <> None
  /\ get Key.asset_allocation (uploadStatus s) = Some Status.error
  /\ get Key.asset_allocation
       (parsedData (run_op Sample.both Sample.env s
                      (resetSlot Key.asset_allocation))) = JS.Null.
Proof.
  intros s.
  assert (R : reachable Sample.both Sample.env s)
    by (do 2 apply reach_step; apply reach_initial).
  pose proof (error_cleared_on_attempt_both_on_reset Sample.both Sample.env s
                Key.asset_allocation R) as (H1 & _ & H3 & _).
  split; [exact R|]. split; [|split].
  - vm_compute. discriminate.
  - apply H1. vm_compute. discriminate.
  - exact H3.
Defined.

(** * Further properties of the handlers *)

Lemma reset_not_complete (p : props) (env : collaborators)
    (s : wizard_state) (k : Key.t) :
  is_complete (run_op p env s (resetSlot k)) = false.
Proof.
  rewrite run_reset, is_complete_andb. cbn [parsedData].
  destruct k; cbn; [reflexivity | apply andb_false_r].
Qed.

(** Re-completion.  In a session whose other slot holds a truthy payload,
    resetting a slot makes [isComplete] false without any notification, and a
    successful upload to that slot afterwards calls [onComplete] once more,
    with the other slot's payload and the newly parsed one. *)
Theorem reset_then_upload_completes_again
    (p : props) (env : collaborators) (s : wizard_state) (f : File)
    (error : option string) (k : Key.t) (d : JS.value) :
  onComplete p = true ->
  JS.truthy_str error = false ->
  succeeds env f k d ->
  JS.truthy (get (Key.other k) (parsedData s)) = true ->
  let os := [resetSlot k; submitFile k (Some f) error] in
  is_complete (run_op p env s (resetSlot k)) = false
  /\ onComplete_payloads (trace_ops p env s os) = [set k d (parsedData s)]
  /\ parsedData (run_ops p env s os) = set k d (parsedData s)
  /\ (JS.truthy d = true -> is_complete (run_ops p env s os) = true).
Proof.
  intros Hc He Hs Ho os. subst os. split; [apply reset_not_complete|].
  cbn [trace_ops run_ops fold_left].
  rewrite app_nil_r, onComplete_payloads_app.
  rewrite (trace_success_onComplete p env _ f error k d He Hs).
  rewrite (run_success p env _ f error k d He Hs).
  rewrite run_reset. cbn [parsedData currentStep uploadStatus errors].
  rewrite get_set_other, set_set, Hc, Ho.
  split; [reflexivity|]. split; [reflexivity|].
  intros Td. apply is_complete_slots. cbn [parsedData]. intros k'.
  destruct (key_cases k k') as [-> | ->].
  - now rewrite get_set_same.
  - now rewrite get_set_other.
Qed.

Lemma reset_then_upload_completes_again_witness :
  let s := run_ops Sample.both Sample.env initial
             [submitFile Key.asset_allocation (Some Sample.allocation_pdf) None;
              submitFile Key.performance (Some Sample.movement_pdf) None] in
  onComplete_payloads
    (trace_ops Sample.both Sample.env s
       [resetSlot Key.asset_allocation;
        submitFile Key.asset_allocation (Some Sample.allocation_pdf) None])
  = [mk_slots Sample.allocation_data Sample.movement_data].
Proof.
  intros s.
  pose proof (reset_then_upload_completes_again Sample.both Sample.env s
                Sample.allocation_pdf None Key.asset_allocation
                Sample.allocation_data eq_refl eq_refl
                sample_allocation_succeeds eq_refl) as (_ & H & _).
  exact H.
Defined.

(** A reset touches one slot only and talks to nobody: [isComplete] is false
    afterwards, no collaborator is called, no callback is called, the step
    pointer and the other slot's status, payload and error stay as they are. *)
Theorem reset_is_silent_and_local
    (p : props) (env : collaborators) (s : wizard_state) (k : Key.t) :
  let s' := run_op p env s (resetSlot k) in
  is_complete s' = false
  /\ filter is_notification (trace p env s (resetSlot k)) = []
  /\ filter is_collaborator_call (trace p env s (resetSlot k)) = []
  /\ currentStep s' = currentStep s
  /\ get (Key.other k) (uploadStatus s') = get (Key.other k) (uploadStatus s)
  /\ get (Key.other k) (parsedData s') = get (Key.other k) (parsedData s)
  /\ get (Key.other k) (errors s') = get (Key.other k) (errors s).
Proof.
  intros s'. subst s'. split; [apply reset_not_complete|].
  rewrite run_reset. cbn [currentStep uploadStatus parsedData errors].
  rewrite !get_set_other. repeat split.
Qed.

(** Resetting a slot twice is the same as resetting it once, and resets of
    the two slots can be done in either order. *)
Theorem reset_idempotent_and_commutes
    (p : props) (env : collaborators) (s : wizard_state) (k : Key.t) :
  run_ops p env s [resetSlot k; resetSlot k] = run_op p env s (resetSlot k)
  /\ run_ops p env s [resetSlot k; resetSlot (Key.other k)]
     = run_ops p env s [resetSlot (Key.other k); resetSlot k].
Proof.
  cbn [run_ops fold_left]. rewrite !run_reset.
  cbn [currentStep uploadStatus parsedData errors].
  rewrite !set_set. split; [reflexivity|].
  f_equal; symmetry; apply set_swap.
Qed.

(** A failed submission, of any of the four kinds, calls neither
    [onPartialData] nor [onComplete], and leaves the whole of [parsedData] and
    the step pointer as they were. *)
Theorem failure_notifies_nobody
    (p : props) (env : collaborators) (s : wizard_state)
    (file : option File) (error : option string) (k : Key.t)
    (kind : failure_kind) (msg : string) :
  fails env file error k kind msg ->
  let o := submitFile k file error in
  onPartialData_calls (trace p env s o) = []
  /\ onComplete_payloads (trace p env s o) = []
  /\ parsedData (run_op p env s o) = parsedData s
  /\ currentStep (run_op p env s o) = currentStep s.
Proof.
  intros F o. subst o.
  destruct (quiet_no_calls _ (trace_failure_quiet p env s file error k kind msg F))
    as [Q1 Q2].
  rewrite (run_failure p env s file error k kind msg F).
  repeat split; assumption.
Qed.

Lemma sample_damaged_fails :
  fails Sample.env (Some Sample.damaged_pdf) None Key.asset_allocation
    ParseFailure "No allocation table found".
Proof.
  apply fails_parse
    with (f := Sample.damaged_pdf)
         (e := mk_extracted (Some Sample.damaged_text))
         (t := Sample.damaged_text)
         (i := Some (mk_identification (Some "asset_allocation")
                       (Some "Asset Allocation Report")))
         (st := mk_step 1 Key.asset_allocation "Asset Allocation Report"
                  "Investment Allocation PDF" "asset_allocation")
         (err := JS.new_Error "No allocation table found");
    try reflexivity. vm_compute; repeat constructor.
Defined.

Lemma failure_notifies_nobody_witness :
  let s := run_op Sample.both Sample.env initial
             (submitFile Key.asset_allocation (Some Sample.allocation_pdf) None) in
  let o := submitFile Key.asset_allocation (Some Sample.damaged_pdf) None in
  onPartialData_calls (trace Sample.both Sample.env s o) = []
  /\ parsedData (run_op Sample.both Sample.env s o)
     = mk_slots Sample.allocation_data JS.Null.
Proof.
  intros s o.
  pose proof (failure_notifies_nobody Sample.both Sample.env s _ _ _ _ _
                sample_damaged_fails) as (H1 & _ & H3 & _).
  split; [exact H1 | exact H3].
Defined.

(** The collaborators are called at most once each and in pipeline order:
    nothing when a selection error is reported or no file is given, else the
    extractor on the file, then the identifier on the extracted text if
    that has 100 characters or more, then the parser on the extractor's
    result if the identified type is the slot's expected type. *)
Theorem collaborators_called_in_order
    (p : props) (env : collaborators) (s : wizard_state)
    (file : option File) (error : option string) (k : Key.t) :
  let calls :=
    filter is_collaborator_call (trace p env s (submitFile k file error)) in
  ((JS.truthy_str error = true \/ file = None) /\ calls = [])
  \/ exists f,
       file = Some f /\ JS.truthy_str error = false
       /\ (calls = [call_extractTextFromPDF f]
           \/ exists e t,
                extractTextFromPDF env f = inr e /\ fullText e = Some t
                /\ 100 <= String.length t
                /\ (calls = [call_extractTextFromPDF f;
                             call_identifyReportType t]
                    \/ (calls = [call_extractTextFromPDF f;
                                 call_identifyReportType t;
                                 call_parseReport e]
                        /\ exists i st,
                             identifyReportType env t = inr i
                             /\ step_of k = Some st
                             /\ type_of i = Some (expectedType st)))).
Proof.
  intros calls. subst calls. unfold trace, dispatch.
  destruct (JS.truthy_str error) eqn:He.
  { left. rewrite handleFileUpload_selection by exact He.
    split; [now left | reflexivity]. }
  destruct file as [f|];
    [|left; rewrite handleFileUpload_no_file by exact He;
      split; [now right | reflexivity]].
  right. exists f. split; [reflexivity|]. split; [reflexivity|].
  destruct (extractTextFromPDF env f) as [err|e] eqn:E.
  { left. now rewrite (handleFileUpload_extract_throws p env s f error k err). }
  destruct (insufficient (fullText e)) eqn:I.
  { left. now rewrite (handleFileUpload_extract_short p env s f error k e). }
  apply insufficient_false in I as (t & T & L).
  right. exists e, t. repeat (split; [first [reflexivity | assumption]|]).
  destruct (identifyReportType env t) as [err|i] eqn:Id.
  { left.
    now rewrite (handleFileUpload_identify_throws p env s f error k e t err). }
  destruct (step_of_key k) as (st & S & _).
  destruct (type_differs (type_of i) (expectedType st)) eqn:D.
  { left. apply type_differs_true in D.
    now rewrite (handleFileUpload_mismatch p env s f error k e t i st). }
  assert (D' : type_of i = Some (expectedType st)).
  { destruct (type_of i) as [x|]; [|discriminate]. simpl in D.
    apply negb_false_iff, String.eqb_eq in D. now subst. }
  right. split; [|now exists i, st].
  destruct (parseReport env e) as [err|pr] eqn:P.
  - now rewrite (handleFileUpload_parse_throws p env s f error k e t i st err).
  - rewrite (handleFileUpload_parsed p env s f error k e t i st pr
               He E T L Id S D' P).
    cbn [fst]. rewrite !filter_app.
    destruct (onPartialData p),
      (onComplete p && JS.truthy (get (Key.other k) (parsedData s))),
      (currentStep s <? List.length STEPS)%nat; reflexivity.
Qed.

(** An extraction that throws, or that resolves without a [fullText] (or
    with an empty one), stops the run after the extractor: the slot records
    the extractor's own message in the first case and the fixed
    extraction-failure message in the second, and neither the identifier nor
    the parser is called. *)
Theorem extraction_failure_stops_pipeline
    (p : props) (env : collaborators) (s : wizard_state) (f : File)
    (error : option string) (k : Key.t) :
  JS.truthy_str error = false ->
  let o := submitFile k (Some f) error in
  let calls := filter is_collaborator_call (trace p env s o) in
  (forall err,
      extractTextFromPDF env f = inl err ->
      get k (uploadStatus (run_op p env s o)) = Some Status.error
      /\ get k (errors (run_op p env s o)) = Some (JS.message err)
      /\ calls = [call_extractTextFromPDF f])
  /\ (forall e,
        extractTextFromPDF env f = inr e ->
        fullText e = None \/ fullText e = Some "" ->
        get k (uploadStatus (run_op p env s o)) = Some Status.error
        /\ get k (errors (run_op p env s o)) = Some extraction_message
        /\ calls = [call_extractTextFromPDF f]).
Proof.
  intros He o calls. subst o calls. split.
  - intros err E.
    rewrite (run_failure p env s (Some f) error k ExtractionFailure
               (JS.message err))
      by now apply fails_extract_throws with (f := f).
    cbn [uploadStatus errors]. rewrite !get_set_same.
    unfold trace, dispatch.
    now rewrite (handleFileUpload_extract_throws p env s f error k err He E).
  - intros e E N.
    assert (I : insufficient (fullText e) = true)
      by (destruct N as [-> | ->]; reflexivity).
    rewrite (run_failure p env s (Some f) error k ExtractionFailure
               extraction_message)
      by now apply fails_extract_short with (f := f) (e := e).
    cbn [uploadStatus errors]. rewrite !get_set_same.
    unfold trace, dispatch.
    now rewrite (handleFileUpload_extract_short p env s f error k e He E I).
Qed.

Lemma extraction_failure_stops_pipeline_witness :
  let o := submitFile Key.performance (Some Sample.locked_pdf) None in
  get Key.performance (errors (run_op Sample.both Sample.env initial o))
  = Some "Invalid PDF structure"
  /\ filter is_collaborator_call (trace Sample.both Sample.env initial o)
     = [call_extractTextFromPDF Sample.locked_pdf].
Proof.
  intros o.
  pose proof (extraction_failure_stops_pipeline Sample.both Sample.env initial
                Sample.locked_pdf None Key.performance eq_refl) as [H _].
  destruct (H (JS.new_Error "Invalid PDF structure") eq_refl) as (_ & H2 & H3).
  split; [exact H2 | exact H3].
Defined.

(** If the identifier itself throws, the run ends like any other failure:
    the slot is in [error] with the thrown message, the parser is not called,
    no callback is called and [parsedData] is unchanged. *)
Theorem identifier_throw_is_recorded
    (p : props) (env : collaborators) (s : wizard_state) (f : File)
    (error : option string) (k : Key.t) (e : extracted) (t : string)
    (err : JS.Error) :
  JS.truthy_str error = false ->
  extractTextFromPDF env f = inr e ->
  fullText e = Some t ->
  100 <= String.length t ->
  identifyReportType env t = inl err ->
  let o := submitFile k (Some f) error in
  get k (uploadStatus (run_op p env s o)) = Some Status.error
  /\ get k (errors (run_op p env s o)) = Some (JS.message err)
  /\ parsedData (run_op p env s o) = parsedData s
  /\ count is_parseReport (trace p env s o) = 0
  /\ filter is_notification (trace p env s o) = []
  /\ snd (dispatch p env s o) = inr tt.
Proof.
  intros He E T L I o. subst o.
  rewrite (run_identify_throws p env s f error k e t err He E T L I).
  cbn [uploadStatus errors parsedData]. rewrite !get_set_same.
  unfold trace. rewrite dispatch_returns. unfold dispatch.
  rewrite (handleFileUpload_identify_throws p env s f error k e t err
             He E T L I).
  repeat split.
Qed.

Lemma identifier_throw_is_recorded_witness :
  let env := mk_collaborators Sample.extract
               (fun _ => inl (JS.new_Error "Registry not loaded"))
               Sample.parse in
  let o := submitFile Key.asset_allocation (Some Sample.allocation_pdf) None in
  get Key.asset_allocation (errors (run_op Sample.both env initial o))
  = Some "Registry not loaded"
  /\ count is_parseReport (trace Sample.both env initial o) = 0.
Proof.
  intros env o.
  assert (L : 100 <= String.length Sample.allocation_text)
    by (vm_compute; repeat constructor).
  pose proof (identifier_throw_is_recorded Sample.both env initial
                Sample.allocation_pdf None Key.asset_allocation
                (mk_extracted (Some Sample.allocation_text))
                Sample.allocation_text (JS.new_Error "Registry not loaded")
                eq_refl eq_refl eq_refl L eq_refl)
    as (_ & H2 & _ & H4 & _).
  split; [exact H2 | exact H4].
Defined.

(** Every upload attempt settles: after a submission with a file and no
    selection error the slot is in [success] with no error, or in [error]
    with a message; it is never left in [processing]. *)
Theorem attempt_settles
    (p : props) (env : collaborators) (s : wizard_state) (f : File)
    (error : option string) (k : Key.t) :
  JS.truthy_str error = false ->
  let s' := run_op p env s (submitFile k (Some f) error) in
  (get k (uploadStatus s') = Some Status.success /\ get k (errors s') = None)
  \/ (get k (uploadStatus s') = Some Status.error
      /\ exists msg, get k (errors s') = Some msg).
Proof.
  intros He s'. subst s'.
  destruct (submission_cases env f error k He)
    as [(d & Hs) | [(kind & msg & Hf) | (e & t & err & E & T & L & I)]].
  - left. rewrite (run_success p env s f error k d He Hs).
    cbn [uploadStatus errors]. now rewrite !get_set_same.
  - right. rewrite (run_failure p env s (Some f) error k kind msg Hf).
    cbn [uploadStatus errors]. rewrite !get_set_same.
    split; [reflexivity | now exists msg].
  - right. rewrite (run_identify_throws p env s f error k e t err He E T L I).
    cbn [uploadStatus errors]. rewrite !get_set_same.
    split; [reflexivity | now exists (JS.message err)].
Qed.

Lemma attempt_settles_witness :
  let s' := run_op Sample.both Sample.env initial
              (submitFile Key.performance (Some Sample.memo_pdf) None) in
  (get Key.performance (uploadStatus s') = Some Status.success
   /\ get Key.performance (errors s') = None)
  \/ (get Key.performance (uploadStatus s') = Some Status.error
      /\ exists msg, get Key.performance (errors s') = Some msg).
Proof.
  exact (attempt_settles Sample.both Sample.env initial Sample.memo_pdf None
           Key.performance eq_refl).
Defined.

(** ** The status strings and the step pointer *)

Lemma hasAnyUpload_false (s : wizard_state) :
  hasAnyUpload s = false
  <-> forall k, get k (uploadStatus s) = Some Status.idle.
Proof.
  unfold hasAnyUpload. rewrite orb_false_iff, !negb_false_iff. split.
  - intros [A B] k. destruct k; cbn [get].
    + destruct (asset_allocation (uploadStatus s)) as [[]|];
        try discriminate; reflexivity.
    + destruct (performance (uploadStatus s)) as [[]|];
        try discriminate; reflexivity.
  - intros H. pose proof (H Key.asset_allocation) as A.
    pose proof (H Key.performance) as B. cbn [get] in A, B.
    now rewrite A, B.
Qed.

Lemma idle_only_if_idle_before (p : props) (env : collaborators)
    (s : wizard_state) (o : op) (k : Key.t) :
  get k (uploadStatus (run_op p env s o)) = Some Status.idle ->
  get k (uploadStatus s) = Some Status.idle.
Proof.
  destruct (run_op_slot p env s o k)
    as [Hs Hd He | msg Hs Hd He | e pr P Hs Hd He | Hs Hd He];
    rewrite Hs; [auto | discriminate | discriminate | discriminate].
Qed.

(** No operation writes ['idle']: a slot whose status is ['idle'] after an
    operation had it before, so once [hasAnyUpload] is true it stays true
    through every later operation, resets included. *)
Theorem hasAnyUpload_stays_true
    (p : props) (env : collaborators) (s : wizard_state) (os : list op) :
  hasAnyUpload s = true ->
  hasAnyUpload (run_ops p env s os) = true.
Proof.
  revert s. induction os as [|o os IH]; intros s H; [exact H|].
  cbn [run_ops fold_left]. apply IH.
  destruct (hasAnyUpload (run_op p env s o)) eqn:N; [reflexivity|].
  assert (F : hasAnyUpload s = false).
  { apply hasAnyUpload_false. intros k.
    apply (idle_only_if_idle_before p env s o k).
    now apply hasAnyUpload_false. }
  congruence.
Qed.

Lemma hasAnyUpload_stays_true_witness :
  hasAnyUpload (run_op Sample.both Sample.env initial
                  (resetSlot Key.asset_allocation)) = true
  /\ hasAnyUpload
       (run_ops Sample.both Sample.env
          (run_op Sample.both Sample.env initial (resetSlot Key.asset_allocation))
          [resetSlot Key.performance; resetSlot Key.asset_allocation]) = true.
Proof.
  split; [reflexivity|].
  apply (hasAnyUpload_stays_true Sample.both Sample.env
           (run_op Sample.both Sample.env initial (resetSlot Key.asset_allocation))
           [resetSlot Key.performance; resetSlot Key.asset_allocation]).
  reflexivity.
Defined.

Lemma currentStep_after (p : props) (env : collaborators)
    (s : wizard_state) (o : op) :
  match o with
  | selectStep n => currentStep (run_op p env s o) = n
  | submitFile k file error =>
      currentStep (run_op p env s o) = currentStep s
      \/ (currentStep s < List.length STEPS
          /\ currentStep (run_op p env s o) = currentStep s + 1
          /\ exists f d, file = Some f /\ JS.truthy_str error = false
                         /\ succeeds env f k d)
  | resetSlot _ => currentStep (run_op p env s o) = currentStep s
  end.
Proof.
  destruct o as [k file error | k | n];
    [|now rewrite run_reset | now rewrite run_select].
  destruct (JS.truthy_str error) eqn:He.
  { pose proof He as Ht. apply truthy_str_true in Ht as (msg & -> & N).
    left. now rewrite (run_failure p env s file (Some msg) k SelectionError msg)
      by now constructor. }
  destruct file as [f|]; [|left; now rewrite run_no_file].
  destruct (submission_cases env f error k He)
    as [(d & Hs) | [(kind & msg & Hf) | (e & t & err & E & T & L & I)]].
  - rewrite (run_success p env s f error k d He Hs). cbn [currentStep].
    destruct (currentStep s <? List.length STEPS)%nat eqn:C.
    + right. apply Nat.ltb_lt in C. split; [exact C|]. split; [reflexivity|].
      now exists f, d.
    + now left.
  - left. now rewrite (run_failure p env s (Some f) error k kind msg Hf).
  - left. now rewrite (run_identify_throws p env s f error k e t err He E T L I).
Qed.

(** The step pointer always names a step: with the step buttons selecting
    only ids of [STEPS], whatever the user does, [currentStep] stays between
    1 and the number of steps; the automatic advance after a successful
    upload never goes past the last step. *)
Theorem currentStep_names_a_step
    (p : props) (env : collaborators) (s : wizard_state) (os : list op) :
  forallb from_ui os = true ->
  1 <= currentStep s <= List.length STEPS ->
  1 <= currentStep (run_ops p env s os) <= List.length STEPS.
Proof.
  revert s. induction os as [|o os IH]; intros s U B; [exact B|].
  cbn [forallb] in U. apply andb_true_iff in U as [Uo U].
  cbn [run_ops fold_left]. apply IH; [exact U|].
  pose proof (currentStep_after p env s o) as C.
  destruct o as [k file error | k | n].
  - destruct C as [-> | (L & -> & _)]; lia.
  - rewrite C. exact B.
  - rewrite C. destruct n as [|[|[|n]]]; cbn in Uo; try discriminate; cbn; lia.
Qed.

Lemma currentStep_names_a_step_witness :
  1 <= currentStep
         (run_ops Sample.both Sample.env initial
            [submitFile Key.performance (Some Sample.movement_pdf) None;
             submitFile Key.asset_allocation (Some Sample.allocation_pdf) None;
             selectStep 1;
             submitFile Key.asset_allocation (Some Sample.allocation_pdf) None;
             submitFile Key.asset_allocation (Some Sample.allocation_pdf) None])
    <= 2.
Proof.
  apply (currentStep_names_a_step Sample.both Sample.env initial);
    [reflexivity | cbn; lia].
Defined.

(** Only a successful parse moves the step pointer by itself, and then by
    exactly one step and only when it is not yet on the last step; it does
    so whichever slot was uploaded.  Failed submissions, empty submissions
    and resets leave it where it is. *)
Theorem step_advances_only_on_success
    (p : props) (env : collaborators) (s : wizard_state)
    (k : Key.t) (file : option File) (error : option string) :
  let s' := run_op p env s (submitFile k file error) in
  (currentStep s' <> currentStep s ->
   currentStep s < List.length STEPS
   /\ currentStep s' = currentStep s + 1
   /\ exists f d, file = Some f /\ JS.truthy_str error = false
                  /\ succeeds env f k d)
  /\ (forall f d,
        file = Some f -> JS.truthy_str error = false -> succeeds env f k d ->
        currentStep s'
        = if (currentStep s <? List.length STEPS)%nat
          then currentStep s + 1 else currentStep s)
  /\ currentStep (run_op p env s (resetSlot k)) = currentStep s.
Proof.
  intros s'. subst s'. split; [|split].
  - intros N.
    destruct (currentStep_after p env s (submitFile k file error)) as [E | H];
      [congruence | exact H].
  - intros f d -> He Hs. now rewrite (run_success p env s f error k d He Hs).
  - now rewrite run_reset.
Qed.

Lemma step_advances_only_on_success_witness :
  currentStep (run_op Sample.both Sample.env initial
                 (submitFile Key.performance (Some Sample.movement_pdf) None))
  = 2.
Proof.
  pose proof (step_advances_only_on_success Sample.both Sample.env initial
                Key.performance (Some Sample.movement_pdf) None) as (_ & H & _).
  exact (H Sample.movement_pdf Sample.movement_data eq_refl eq_refl
           sample_movement_succeeds).
Defined.

(** ** Runs that overlap *)

Lemma interleaved_nil_r {A} (a w : list A) : interleaved a [] w -> w = a.
Proof.
  revert w. induction a as [|x a IH]; intros w H; inversion H; subst;
    [reflexivity | f_equal; now apply IH].
Qed.

Lemma interleaved_nil_l {A} (b w : list A) : interleaved [] b w -> w = b.
Proof.
  revert w. induction b as [|y b IH]; intros w H; inversion H; subst;
    [reflexivity | f_equal; now apply IH].
Qed.

Lemma interleaved_choose {X} (f : effect -> option X) (a b w : list effect) :
  interleaved a b w -> interleaved (choose f a) (choose f b) (choose f w).
Proof.
  induction 1 as [|x a b w H IH|y a b w H IH]; cbn [choose].
  - constructor.
  - destruct (f x); [now constructor | exact IH].
  - destruct (f y); [now constructor | exact IH].
Qed.

Lemma choose_app {X} (f : effect -> option X) (w w' : list effect) :
  choose f (w ++ w')%list = (choose f w ++ choose f w')%list.
Proof.
  induction w as [|e w IH]; [reflexivity|]. cbn [choose app].
  destruct (f e); cbn [app]; now rewrite IH.
Qed.

Lemma last_cons_default {A} (x d : A) (l : list A) :
  last (x :: l) d = last l x.
Proof.
  revert x d. induction l as [|y l IH]; intros x d; [reflexivity|].
  change (last (x :: y :: l) d) with (last (y :: l) d).
  rewrite IH. symmetry. apply IH.
Qed.

Lemma commit_uploadStatus (s : wizard_state) (w : list effect) (k : Key.t) :
  get k (uploadStatus (commit s w))
  = last (choose (status_write k) w) (get k (uploadStatus s)).
Proof.
  revert s. induction w as [|e w IH]; intros s; [reflexivity|].
  change (commit s (e :: w)) with (commit (apply_effect s e) w).
  rewrite IH. cbn [choose].
  destruct e as [k' v| | | | | | | | | |]; cbn [status_write apply_effect];
    try reflexivity.
  destruct (Key.eqb k' k) eqn:E.
  - assert (k' = k) as -> by (destruct k', k; (reflexivity || discriminate)).
    cbn [with_uploadStatus uploadStatus].
    now rewrite get_set_same, last_cons_default.
  - cbn [with_uploadStatus uploadStatus].
    replace (get k (set k' v (uploadStatus s))) with (get k (uploadStatus s))
      by (destruct k', k; (reflexivity || discriminate)).
    reflexivity.
Qed.

Lemma commit_errors (s : wizard_state) (w : list effect) (k : Key.t) :
  get k (errors (commit s w))
  = last (choose (error_write k) w) (get k (errors s)).
Proof.
  revert s. induction w as [|e w IH]; intros s; [reflexivity|].
  change (commit s (e :: w)) with (commit (apply_effect s e) w).
  rewrite IH. cbn [choose].
  destruct e as [|k' v| | | | | | | | |]; cbn [error_write apply_effect];
    try reflexivity.
  destruct (Key.eqb k' k) eqn:E.
  - assert (k' = k) as -> by (destruct k', k; (reflexivity || discriminate)).
    cbn [with_errors errors].
    now rewrite get_set_same, last_cons_default.
  - cbn [with_errors errors].
    replace (get k (set k' v (errors s))) with (get k (errors s))
      by (destruct k', k; (reflexivity || discriminate)).
    reflexivity.
Qed.

Lemma commit_parsedData (s : wizard_state) (w : list effect) :
  parsedData (commit s w)
  = fold_left (fun o f => f o) (choose data_write w) (parsedData s).
Proof.
  revert s. induction w as [|e w IH]; intros s; [reflexivity|].
  change (commit s (e :: w)) with (commit (apply_effect s e) w).
  rewrite IH. destruct e; reflexivity.
Qed.

Lemma onComplete_payloads_choose (w : list effect) :
  onComplete_payloads w = choose onComplete_arg w.
Proof.
  induction w as [|e w IH]; [reflexivity|].
  destruct e; cbn; rewrite <- ?IH; reflexivity.
Qed.

Lemma slots_eta {A} (o : slots A) :
  o = mk_slots (get Key.asset_allocation o) (get Key.performance o).
Proof. now destruct o. Qed.

Section Overlap.

Variable p : props.
Variable env : collaborators.

(** What a successful run writes, seen slot by slot. *)
Lemma success_writes render f error k d :
  JS.truthy_str error = false ->
  succeeds env f k d ->
  let w := trace p env render (submitFile k (Some f) error) in
  choose (status_write k) w = [Some Status.processing; Some Status.success]
  /\ choose (status_write (Key.other k)) w = []
  /\ choose (error_write k) w = [None]
  /\ choose (error_write (Key.other k)) w = []
  /\ choose data_write w = [fun _ => set k d (parsedData render)].
Proof.
  intros He [e t i st pr E T L I S D P <-] w. subst w. unfold trace, dispatch.
  rewrite (handleFileUpload_parsed p env render f error k e t i st pr
             He E T L I S D P).
  cbn [fst]. rewrite !choose_app.
  destruct (onPartialData p),
    (onComplete p && JS.truthy (get (Key.other k) (parsedData render))),
    (currentStep render <? List.length STEPS)%nat, k; repeat split.
Qed.

End Overlap.

(** A handler that runs from the closure of an earlier render replaces the
    whole of [parsedData] by that render's object with its own slot set: on
    success the other slot's payload in the current state is discarded in
    favour of the one the closure captured, while the other slot's status and
    error, which are updated functionally, are kept; the completion check,
    too, looks at the captured object. *)
Theorem stale_closure_overwrites_parsedData
    (p : props) (env : collaborators) (render s : wizard_state) (f : File)
    (error : option string) (k : Key.t) (d : JS.value) :
  JS.truthy_str error = false ->
  succeeds env f k d ->
  let o := submitFile k (Some f) error in
  let s' := run_from p env render s o in
  parsedData s' = set k d (parsedData render)
  /\ get (Key.other k) (parsedData s') = get (Key.other k) (parsedData render)
  /\ get k (uploadStatus s') = Some Status.success
  /\ get (Key.other k) (uploadStatus s') = get (Key.other k) (uploadStatus s)
  /\ get (Key.other k) (errors s') = get (Key.other k) (errors s)
  /\ onComplete_payloads (trace p env render o)
     = if onComplete p && JS.truthy (get (Key.other k) (parsedData render))
       then [set k d (parsedData render)] else [].
Proof.
  intros He Hs o s'. subst o s'. unfold run_from.
  destruct (success_writes p env render f error k d He Hs)
    as (W1 & W2 & W3 & W4 & W5).
  rewrite commit_parsedData, !commit_uploadStatus, commit_errors.
  rewrite W1, W2, W4, W5. cbn [fold_left last].
  rewrite get_set_other.
  rewrite (trace_success_onComplete p env render f error k d He Hs).
  repeat split.
Qed.

Lemma stale_closure_overwrites_parsedData_witness :
  let s := run_op Sample.both Sample.env initial
             (submitFile Key.asset_allocation (Some Sample.allocation_pdf) None) in
  let s' := run_from Sample.both Sample.env initial s
              (submitFile Key.performance (Some Sample.movement_pdf) None) in
  parsedData s' = mk_slots JS.Null Sample.movement_data
  /\ get Key.asset_allocation (uploadStatus s') = Some Status.success
  /\ onComplete_payloads
       (trace Sample.both Sample.env initial
          (submitFile Key.performance (Some Sample.movement_pdf) None)) = [].
Proof.
  intros s s'.
  pose proof (stale_closure_overwrites_parsedData Sample.both Sample.env
                initial s Sample.movement_pdf None Key.performance
                Sample.movement_data eq_refl sample_movement_succeeds)
    as (H1 & _ & _ & H4 & _ & H6).
  split; [exact H1|]. split; [exact H4 | exact H6].
Defined.

(** Two uploads that overlap, one per slot, both started from the same
    render and both successful: however their effects interleave, both slots
    end in [success] without error, but [parsedData] holds only one of the two
    new payloads; if the render held no payload, [onComplete] is never called
    and [isComplete] stays false. *)
Theorem overlapping_uploads_lose_a_payload
    (p : props) (env : collaborators) (render : wizard_state)
    (fa fp : File) (a b : JS.value) (w : list effect) :
  succeeds env fa Key.asset_allocation a ->
  succeeds env fp Key.performance b ->
  interleaved
    (trace p env render (submitFile Key.asset_allocation (Some fa) None))
    (trace p env render (submitFile Key.performance (Some fp) None)) w ->
  let s' := commit render w in
  uploadStatus s' = mk_slots (Some Status.success) (Some Status.success)
  /\ errors s' = mk_slots None None
  /\ (parsedData s' = set Key.asset_allocation a (parsedData render)
      \/ parsedData s' = set Key.performance b (parsedData render))
  /\ (JS.truthy (asset_allocation (parsedData render)) = false ->
      JS.truthy (performance (parsedData render)) = false ->
      onComplete_payloads w = [] /\ is_complete s' = false).
Proof.
  intros Ha Hb Hw s'. subst s'.
  destruct (success_writes p env render fa None Key.asset_allocation a
              eq_refl Ha) as (A1 & A2 & A3 & A4 & A5).
  destruct (success_writes p env render fp None Key.performance b
              eq_refl Hb) as (B1 & B2 & B3 & B4 & B5).
  cbn [Key.other] in A2, A4, B2, B4.
  assert (Sa := interleaved_choose (status_write Key.asset_allocation) _ _ _ Hw).
  assert (Sp := interleaved_choose (status_write Key.performance) _ _ _ Hw).
  assert (Ea := interleaved_choose (error_write Key.asset_allocation) _ _ _ Hw).
  assert (Ep := interleaved_choose (error_write Key.performance) _ _ _ Hw).
  assert (Dw := interleaved_choose data_write _ _ _ Hw).
  rewrite A1, B2 in Sa. rewrite A2, B1 in Sp.
  rewrite A3, B4 in Ea. rewrite A4, B3 in Ep. rewrite A5, B5 in Dw.
  apply interleaved_nil_r in Sa, Ea. apply interleaved_nil_l in Sp, Ep.
  assert (P : parsedData (commit render w)
              = set Key.asset_allocation a (parsedData render)
              \/ parsedData (commit render w)
                 = set Key.performance b (parsedData render)).
  { rewrite commit_parsedData.
    remember (choose data_write w) as dw eqn:Edw. clear Edw.
    inversion Dw as [|x a0 b0 w0 H1|y a0 b0 w0 H1]; subst.
    - apply interleaved_nil_l in H1. subst w0. now right.
    - apply interleaved_nil_r in H1. subst w0. now left. }
  split; [|split; [|split]].
  - rewrite (slots_eta (uploadStatus (commit render w))).
    now rewrite !commit_uploadStatus, Sa, Sp.
  - rewrite (slots_eta (errors (commit render w))).
    now rewrite !commit_errors, Ea, Ep.
  - exact P.
  - intros Na Np. split.
    + rewrite onComplete_payloads_choose.
      assert (Cw := interleaved_choose onComplete_arg _ _ _ Hw).
      rewrite <- !onComplete_payloads_choose in Cw.
      rewrite (trace_success_onComplete p env render fa None
                 Key.asset_allocation a eq_refl Ha) in Cw.
      rewrite (trace_success_onComplete p env render fp None
                 Key.performance b eq_refl Hb) in Cw.
      cbn [Key.other get] in Cw. rewrite Na, Np, !andb_false_r in Cw.
      apply interleaved_nil_r in Cw. now rewrite <- onComplete_payloads_choose.
    + rewrite is_complete_andb.
      destruct P as [-> | ->]; cbn [set asset_allocation performance].
      * rewrite Np. apply andb_false_r.
      * now rewrite Na.
Qed.

Lemma overlapping_uploads_lose_a_payload_witness :
  let ta := trace Sample.both Sample.env initial
              (submitFile Key.asset_allocation (Some Sample.allocation_pdf) None) in
  let tb := trace Sample.both Sample.env initial
              (submitFile Key.performance (Some Sample.movement_pdf) None) in
  let w := (firstn 3 ta ++ firstn 3 tb ++ skipn 3 ta ++ skipn 3 tb)%list in
  interleaved ta tb w
  /\ uploadStatus (commit initial w)
     = mk_slots (Some Status.success) (Some Status.success)
  /\ onComplete_payloads w = []
  /\ is_complete (commit initial w) = false.
Proof.
  intros ta tb w.
  assert (Hw : interleaved ta tb w).
  { vm_compute.
    repeat first [apply interleaved_nil | apply interleaved_left
                 | apply interleaved_right]. }
  pose proof (overlapping_uploads_lose_a_payload Sample.both Sample.env initial
                Sample.allocation_pdf Sample.movement_pdf
                Sample.allocation_data Sample.movement_data w
                sample_allocation_succeeds sample_movement_succeeds Hw)
    as (H1 & _ & _ & H4).
  destruct (H4 eq_refl eq_refl) as [H5 H6].
  split; [exact Hw|]. split; [exact H1|]. split; [exact H5 | exact H6].
Defined.

(** ** The shell *)

Lemma shell_isComplete_members (fundData : option (slots JS.value)) :
  JS.truthy (AppShell.isComplete fundData) = true
  <-> forall k, JS.truthy (AppShell.member k fundData) = true.
Proof.
  unfold AppShell.isComplete, JS.and. split.
  - intros H k.
    destruct (JS.truthy (AppShell.member Key.asset_allocation fundData)) eqn:A;
      [|congruence].
    now destruct k.
  - intros H. rewrite (H Key.asset_allocation). apply (H Key.performance).
Qed.

(** The shell's two flags agree with each other: [hasData] is truthy when
    some slot of [fundData] is, [isComplete] when both are, so a complete fund
    always has data and is headed [Portfolio Analysis]; with no [fundData]
    neither flag is truthy. *)
Theorem shell_flags_consistent (fundData : option (slots JS.value)) :
  (JS.truthy (AppShell.hasData fundData) = true
   <-> exists k, JS.truthy (AppShell.member k fundData) = true)
  /\ (JS.truthy (AppShell.isComplete fundData) = true
      <-> forall k, JS.truthy (AppShell.member k fundData) = true)
  /\ (JS.truthy (AppShell.isComplete fundData) = true ->
      JS.truthy (AppShell.hasData fundData) = true
      /\ AppShell.heading fundData = "Portfolio Analysis")
  /\ (fundData = None ->
      JS.truthy (AppShell.hasData fundData) = false
      /\ JS.truthy (AppShell.isComplete fundData) = false
      /\ AppShell.heading fundData = "Pending Fund Data").
Proof.
  assert (Hd : JS.truthy (AppShell.hasData fundData) = true
               <-> exists k, JS.truthy (AppShell.member k fundData) = true).
  { unfold AppShell.hasData, AppShell.or. split.
    - destruct (JS.truthy (AppShell.member Key.asset_allocation fundData)) eqn:A.
      + intros _. now exists Key.asset_allocation.
      + intros B. now exists Key.performance.
    - intros [k Hk].
      destruct (JS.truthy (AppShell.member Key.asset_allocation fundData)) eqn:A;
        [exact A|].
      destruct k; congruence. }
  split; [exact Hd|]. split; [apply shell_isComplete_members|]. split.
  - intros C.
    assert (D : JS.truthy (AppShell.hasData fundData) = true).
    { apply Hd. exists Key.asset_allocation.
      now apply shell_isComplete_members. }
    split; [exact D|]. unfold AppShell.heading. now rewrite D.
  - intros ->. repeat split.
Qed.

(** The state indicator.  When [isComplete] is truthy the label is
    [Analysis Ready] whatever [state] is.  Otherwise the label is that of
    [state] if it is one of the three known states, [Awaiting Documents] for
    any other string that is not the name of an inherited object property,
    and missing for those names; the dot stays amber, also under the label
    [Analysis Ready] of state ['ready']. *)
Theorem indicator_label_cases (state : string) (isComplete : JS.value) :
  (JS.truthy isComplete = true ->
   AppShell.indicator_label state isComplete = Some "Analysis Ready"
   /\ AppShell.indicator_dot isComplete = "bg-emerald-400")
  /\ (JS.truthy isComplete = false ->
      AppShell.indicator_dot isComplete = "bg-amber-400 animate-pulse"
      /\ (state = "processing" ->
          AppShell.indicator_label state isComplete = Some "Processing")
      /\ (state = "ready" ->
          AppShell.indicator_label state isComplete = Some "Analysis Ready")
      /\ (state <> "processing" -> state <> "ready" ->
          ~ In state AppShell.Object_prototype_names ->
          AppShell.indicator_label state isComplete = Some "Awaiting Documents")
      /\ (In state AppShell.Object_prototype_names ->
          AppShell.indicator_label state isComplete = None)).
Proof.
  unfold AppShell.indicator_label, AppShell.currentState, AppShell.indicator_dot.
  split; intros T; rewrite T; [now split|].
  split; [reflexivity|]. split; [now intros ->|]. split; [now intros ->|].
  split.
  - intros N1 N2 N3. unfold AppShell.lookup. cbn [find AppShell.states fst snd].
    apply String.eqb_neq in N1, N2.
    rewrite (String.eqb_sym "processing"), N1, (String.eqb_sym "ready"), N2.
    destruct ("awaiting" =? state); [reflexivity|].
    destruct (existsb (fun n => n =? state) AppShell.Object_prototype_names)
      eqn:X; [|reflexivity].
    apply existsb_exists in X as (n & Hn & E). apply String.eqb_eq in E.
    subst n. now elim N3.
  - intros H. cbn in H.
    repeat (destruct H as [<- | H]; [reflexivity|]). now elim H.
Qed.

Lemma indicator_label_cases_witness :
  AppShell.indicator_label "uploading"
    (AppShell.isComplete (Some (mk_slots Sample.allocation_data JS.Null)))
  = Some "Awaiting Documents"
  /\ AppShell.indicator_label "uploading"
       (AppShell.isComplete
          (Some (mk_slots Sample.allocation_data Sample.movement_data)))
     = Some "Analysis Ready".
Proof.
  split.
  - destruct (indicator_label_cases "uploading"
                (AppShell.isComplete
                   (Some (mk_slots Sample.allocation_data JS.Null))))
      as (_ & H).
    destruct (H eq_refl) as (_ & _ & _ & H4 & _).
    apply H4; [discriminate | discriminate |].
    cbn. intros X.
    repeat (destruct X as [X | X]; [discriminate|]). exact X.
  - destruct (indicator_label_cases "uploading"
                (AppShell.isComplete
                   (Some (mk_slots Sample.allocation_data Sample.movement_data))))
      as (H & _).
    exact (proj1 (H eq_refl)).
Defined.

(** What the wizard reports as complete, the shell shows as complete: for a
    successful upload whose parsed payload is truthy, every object passed to
    [onComplete], given to the shell as [fundData], makes the shell's
    [isComplete] truthy, the indicator read [Analysis Ready] and the heading
    [Portfolio Analysis]. *)
Theorem onComplete_payload_is_complete_for_shell
    (p : props) (env : collaborators) (s : wizard_state) (f : File)
    (error : option string) (k : Key.t) (d : JS.value)
    (o : slots JS.value) (state : string) :
  JS.truthy_str error = false ->
  succeeds env f k d ->
  JS.truthy d = true ->
  In o (onComplete_payloads (trace p env s (submitFile k (Some f) error))) ->
  JS.truthy (AppShell.isComplete (Some o)) = true
  /\ AppShell.indicator_label state (AppShell.isComplete (Some o))
     = Some "Analysis Ready"
  /\ AppShell.heading (Some o) = "Portfolio Analysis".
Proof.
  intros He Hs Td Hin.
  rewrite (trace_success_onComplete p env s f error k d He Hs) in Hin.
  destruct (onComplete p && JS.truthy (get (Key.other k) (parsedData s))) eqn:C;
    [|now elim Hin].
  destruct Hin as [<- | []]. apply andb_true_iff in C as [_ To].
  assert (Cm : JS.truthy (AppShell.isComplete (Some (set k d (parsedData s))))
               = true).
  { apply shell_isComplete_members. intros k'. cbn [AppShell.member].
    destruct (key_cases k k') as [-> | ->].
    - now rewrite get_set_same.
    - now rewrite get_set_other. }
  split; [exact Cm|]. split.
  - unfold AppShell.indicator_label, AppShell.currentState. now rewrite Cm.
  - unfold AppShell.heading, AppShell.hasData, AppShell.or.
    cbn [AppShell.member].
    destruct (JS.truthy (get Key.asset_allocation (set k d (parsedData s))))
      eqn:A; [now rewrite A|].
    pose proof (proj1 (shell_isComplete_members _) Cm Key.asset_allocation) as X.
    cbn [AppShell.member] in X. congruence.
Qed.

Lemma onComplete_payload_is_complete_for_shell_witness :
  let s := run_op Sample.both Sample.env initial
             (submitFile Key.asset_allocation (Some Sample.allocation_pdf) None) in
  AppShell.indicator_label "awaiting"
    (AppShell.isComplete
       (Some (mk_slots Sample.allocation_data Sample.movement_data)))
  = Some "Analysis Ready".
Proof.
  intros s.
  assert (Hin : In (mk_slots Sample.allocation_data Sample.movement_data)
                  (onComplete_payloads
                     (trace Sample.both Sample.env s
                        (submitFile Key.performance
                           (Some Sample.movement_pdf) None))))
    by (vm_compute; left; reflexivity).
  exact (proj1 (proj2
    (onComplete_payload_is_complete_for_shell Sample.both Sample.env s
       Sample.movement_pdf None Key.performance Sample.movement_data
       (mk_slots Sample.allocation_data Sample.movement_data) "awaiting"
       eq_refl sample_movement_succeeds eq_refl Hin))).
Defined.

(** ** The progress text *)

(** The progress text counts the allocation slot only.  After a successful
    upload to [performance] while the allocation slot holds no payload and is
    not in [success], it still reads [0 of 2 uploaded]; after a successful
    upload to [asset_allocation] while the performance slot holds no payload
    it reads [1 of 2 uploaded]; and once both payloads are truthy it reads
    [Complete]. *)
Theorem progress_counts_allocation_only
    (p : props) (env : collaborators) (s : wizard_state) (f : File)
    (error : option string) (k : Key.t) (d : JS.value) :
  JS.truthy_str error = false ->
  succeeds env f k d ->
  let s' := run_op p env s (submitFile k (Some f) error) in
  (JS.truthy (get (Key.other k) (parsedData s)) = false ->
   (k = Key.performance ->
    get Key.asset_allocation (uploadStatus s) <> Some Status.success ->
    progress_label s' = "0 of 2 uploaded")
   /\ (k = Key.asset_allocation -> progress_label s' = "1 of 2 uploaded"))
  /\ (JS.truthy (get (Key.other k) (parsedData s)) = true ->
      JS.truthy d = true -> progress_label s' = "Complete").
Proof.
  intros He Hs s'. subst s'.
  rewrite (run_success p env s f error k d He Hs).
  unfold progress_label. rewrite is_complete_andb.
  cbn [parsedData uploadStatus]. split.
  - intros No. split; intros ->; cbn [Key.other get set asset_allocation
                                        performance] in *.
    + intros Ns. rewrite No. cbn [andb].
      destruct (asset_allocation (uploadStatus s)) as [[]|];
        try reflexivity. now elim Ns.
    + rewrite No, andb_false_r. reflexivity.
  - intros To Td. destruct k;
      cbn [Key.other get set asset_allocation performance] in *;
      now rewrite To, Td.
Qed.

Lemma progress_counts_allocation_only_witness :
  progress_label
    (run_op Sample.both Sample.env initial
       (submitFile Key.performance (Some Sample.movement_pdf) None))
  = "0 of 2 uploaded".
Proof.
  pose proof (progress_counts_allocation_only Sample.both Sample.env initial
                Sample.movement_pdf None Key.performance Sample.movement_data
                eq_refl sample_movement_succeeds) as [H _].
  destruct (H eq_refl) as [H1 _].
  apply H1; [reflexivity | discriminate].
Defined.

(** * Runs from a closure, and the session in flight *)

Lemma run_from_success_parsedData (p : props) (env : collaborators)
    (render s : wizard_state) (f : File) (error : option string)
    (k : Key.t) (d : JS.value) :
  JS.truthy_str error = false ->
  succeeds env f k d ->
  parsedData (run_from p env render s (submitFile k (Some f) error))
  = set k d (parsedData render).
Proof.
  intros He Hs. unfold run_from. rewrite commit_parsedData.
  destruct (success_writes p env render f error k d He Hs)
    as (_ & _ & _ & _ & W).
  now rewrite W.
Qed.

(** C1, amended.  [onComplete] is called at most once per operation.  For a
    handler whose captured [parsedData] is still the current one (no other
    upload has replaced it since the handler's render), it is called exactly
    when the operation is a submission that parses successfully while the
    other slot holds a truthy payload, and then with the merged object that
    becomes [parsedData]; in particular it is called whenever [isComplete] is
    true after a successful parse. *)
Theorem onComplete_fires_iff_other_slot_has_data
    (p : props) (env : collaborators) (render s : wizard_state) (o : op) :
  onComplete p = true ->
  parsedData render = parsedData s ->
  List.length (onComplete_payloads (trace p env render o)) <= 1
  /\ (onComplete_payloads (trace p env render o) <> []
      <-> exists k f error d,
            o = submitFile k (Some f) error
            /\ JS.truthy_str error = false
            /\ succeeds env f k d
            /\ JS.truthy (get (Key.other k) (parsedData s)) = true)
  /\ (onComplete_payloads (trace p env render o) <> [] ->
      onComplete_payloads (trace p env render o)
      = [parsedData (run_from p env render s o)])
  /\ (forall k f error d,
        o = submitFile k (Some f) error ->
        JS.truthy_str error = false ->
        succeeds env f k d ->
        is_complete (run_from p env render s o) = true ->
        onComplete_payloads (trace p env render o) <> []).
Proof.
  intros Hc Hpd. rewrite <- Hpd.
  destruct (trace_quiet_or_success p env render o)
    as [Q | (k & f & error & d & -> & He & Hs)].
  - apply quiet_no_calls in Q as [Q _]. rewrite Q. cbn [List.length].
    split; [lia|]. split; [|split].
    + split; [congruence|].
      intros (k & f & error & d & -> & He & Hs & Ht).
      rewrite (trace_success_onComplete p env render f error k d He Hs), Hc, Ht
        in Q.
      discriminate.
    + congruence.
    + intros k f error d -> He Hs C.
      rewrite (trace_success_onComplete p env render f error k d He Hs), Hc in Q.
      apply is_complete_slots with (k := Key.other k) in C.
      rewrite (run_from_success_parsedData p env render s f error k d He Hs),
        get_set_other in C.
      rewrite C in Q. discriminate.
  - rewrite (trace_success_onComplete p env render f error k d He Hs), Hc.
    rewrite (run_from_success_parsedData p env render s f error k d He Hs).
    cbn [andb].
    destruct (JS.truthy (get (Key.other k) (parsedData render))) eqn:Ht;
      cbn [List.length].
    + split; [lia|]. split; [|split].
      * split; [|discriminate]. intros _. now exists k, f, error, d.
      * reflexivity.
      * discriminate.
    + split; [lia|]. split; [|split].
      * split; [congruence|].
        intros (k' & f' & error' & d' & E & _ & _ & Ht').
        injection E as -> _ _. congruence.
      * congruence.
      * intros k' f' error' d' E _ _ C. injection E as <- _ _.
        apply is_complete_slots with (k := Key.other k) in C.
        rewrite (run_from_success_parsedData p env render s f error k d He Hs),
          get_set_other in C.
        congruence.
Qed.

Lemma onComplete_fires_iff_other_slot_has_data_witness :
  let s := run_op Sample.both Sample.env initial
             (submitFile Key.asset_allocation (Some Sample.allocation_pdf) None) in
  let o := submitFile Key.performance (Some Sample.movement_pdf) None in
  onComplete_payloads (trace Sample.both Sample.env s o)
  = [mk_slots Sample.allocation_data Sample.movement_data].
Proof.
  intros s o.
  pose proof (onComplete_fires_iff_other_slot_has_data Sample.both Sample.env
                s s o eq_refl eq_refl) as (_ & _ & H & _).
  apply H. vm_compute. discriminate.
Defined.

(** ** What holds in every state of a live session *)

Lemma status_is_idle (v : option Status.t) :
  status_is Status.idle v = true <-> v = Some Status.idle.
Proof.
  destruct v as [[]|]; cbn; split; (reflexivity || discriminate).
Qed.

Lemma left_idle_set (s : wizard_state) (k k' : Key.t) (v : option Status.t) :
  v <> Some Status.idle ->
  left_idle (with_uploadStatus s (set k v (uploadStatus s))) k'
  = Key.eqb k' k || left_idle s k'.
Proof.
  intros N. unfold left_idle. cbn [with_uploadStatus uploadStatus].
  destruct k, k'; cbn [get set Key.eqb orb asset_allocation performance];
    try reflexivity;
    destruct (status_is Status.idle v) eqn:E; try reflexivity;
    apply status_is_idle in E; now elim N.
Qed.

Lemma writes_ok_mono (w : list effect) :
  forall t t' : Key.t -> bool,
    (forall k, t k = true -> t' k = true) ->
    writes_ok t w -> writes_ok t' w.
Proof.
  induction w as [|e w IH]; intros t t' M H; [exact I|].
  destruct e; cbn [writes_ok] in *;
    try (now apply (IH t t')).
  - destruct H as [N H]. split; [exact N|].
    apply (IH (fun k' => Key.eqb k' k || t k')); [|exact H].
    intros k0 K. apply orb_true_iff in K as [K | K];
      apply orb_true_iff; [now left | right; now apply M].
  - destruct H as [P H]. split; [|now apply (IH t t')].
    intros k0 K. now apply M, P.
  - destruct H as [P H]. split; [|now apply (IH t t')].
    intros K. now apply M, P.
Qed.

(** Performing the next effect of a run keeps what the invariant needs. *)
Lemma apply_effect_ok (s : wizard_state) (e : effect) (w : list effect) :
  payload_needs_status s ->
  writes_ok (left_idle s) (e :: w) ->
  payload_needs_status (apply_effect s e)
  /\ (forall k, left_idle s k = true -> left_idle (apply_effect s e) k = true)
  /\ writes_ok (left_idle (apply_effect s e)) w.
Proof.
  intros Hs H. destruct e; cbn [writes_ok apply_effect] in *.
  - destruct H as [N H].
    assert (L : forall k', left_idle (with_uploadStatus s (set k v (uploadStatus s))) k'
                           = Key.eqb k' k || left_idle s k')
      by (intros k'; now apply left_idle_set).
    split; [|split].
    + intros k' T. rewrite L. apply orb_true_iff. right. now apply Hs.
    + intros k' T. rewrite L. apply orb_true_iff. now right.
    + apply (writes_ok_mono w (fun k' => Key.eqb k' k || left_idle s k'));
        [|exact H].
      intros k' K. now rewrite L.
  - split; [exact Hs|]. split; [auto | exact H].
  - destruct H as [P H]. split; [|split; [auto | exact H]].
    intros k T. now apply P.
  - destruct H as [P H]. split; [|split; [auto | exact H]].
    intros k' T. cbn [with_parsedData parsedData] in T.
    destruct (key_cases k k') as [-> | ->].
    + rewrite get_set_same in T. now apply P.
    + rewrite get_set_other in T. now apply Hs.
  - split; [exact Hs|]. split; [auto | exact H].
  - split; [exact Hs|]. split; [auto | exact H].
  - split; [exact Hs|]. split; [auto | exact H].
  - split; [exact Hs|]. split; [auto | exact H].
  - split; [exact Hs|]. split; [auto | exact H].
  - split; [exact Hs|]. split; [auto | exact H].
  - split; [exact Hs|]. split; [auto | exact H].
Qed.

Lemma key_eqb_refl (k : Key.t) : Key.eqb k k = true.
Proof. now destruct k. Qed.

(** A run started from a render that satisfies the invariant writes
    nothing that breaks it. *)
Lemma trace_writes_ok (p : props) (env : collaborators)
    (render : wizard_state) (o : op) (t : Key.t -> bool) :
  payload_needs_status render ->
  (forall k, left_idle render k = true -> t k = true) ->
  writes_ok t (trace p env render o).
Proof.
  intros Hr Ht. unfold trace.
  destruct o as [k file error | k | n]; cbn [dispatch];
    [|cbn; repeat split; discriminate | exact I].
  destruct (JS.truthy_str error) eqn:He.
  { rewrite handleFileUpload_selection by exact He.
    cbn; repeat split; discriminate. }
  destruct file as [f|]; [|now rewrite handleFileUpload_no_file].
  destruct (extractTextFromPDF env f) as [err|e] eqn:E.
  { rewrite (handleFileUpload_extract_throws p env render f error k err He E).
    cbn; repeat split; discriminate. }
  destruct (insufficient (fullText e)) eqn:I.
  { rewrite (handleFileUpload_extract_short p env render f error k e He E I).
    cbn; repeat split; discriminate. }
  apply insufficient_false in I as (tx & T & L).
  destruct (identifyReportType env tx) as [err|i] eqn:Id.
  { rewrite (handleFileUpload_identify_throws p env render f error k e tx err
               He E T L Id).
    cbn; repeat split; discriminate. }
  destruct (step_of_key k) as (st & S & _).
  destruct (type_differs (type_of i) (expectedType st)) eqn:D.
  { apply type_differs_true in D.
    rewrite (handleFileUpload_mismatch p env render f error k e tx i st
               He E T L Id S D).
    cbn; repeat split; discriminate. }
  assert (D' : type_of i = Some (expectedType st)).
  { destruct (type_of i) as [x|]; [|discriminate]. simpl in D.
    apply negb_false_iff, String.eqb_eq in D. now subst. }
  destruct (parseReport env e) as [err|pr] eqn:P.
  { rewrite (handleFileUpload_parse_throws p env render f error k e tx i st err
               He E T L Id S D' P).
    cbn; repeat split; discriminate. }
  rewrite (handleFileUpload_parsed p env render f error k e tx i st pr
             He E T L Id S D' P).
  assert (G : forall k0,
             JS.truthy (get k0 (set k (data pr) (parsedData render))) = true ->
             Key.eqb k0 k || t k0 = true).
  { intros k0 K. destruct (key_cases k k0) as [-> | ->].
    - now rewrite key_eqb_refl.
    - rewrite get_set_other in K. apply orb_true_iff. right.
      now apply Ht, Hr. }
  destruct (onPartialData p),
    (onComplete p && JS.truthy (get (Key.other k) (parsedData render))),
    (currentStep render <? List.length STEPS)%nat;
    cbn [fst app writes_ok]; repeat split; try discriminate; exact G.
Qed.

Lemma live_step_inv (p : props) (env : collaborators) (l l' : live) :
  live_inv l -> live_step p env l l' -> live_inv l'.
Proof.
  intros (Hn & Hr & Hw) St.
  destruct St as [o render s R P Hin | e w s R P1 P2 Ne | ms n w s R P1 P2];
    cbn [now renders inflight] in *.
  - split; [exact Hn|]. split; [exact Hr|].
    intros w Hin'. apply in_app_or in Hin' as [Hin' | [<- | []]];
      [now apply Hw|].
    destruct Hin as [<- | Hin].
    + now apply trace_writes_ok.
    + destruct (Hr render Hin) as [A B]. now apply trace_writes_ok.
  - assert (Hew : writes_ok (left_idle s) (e :: w))
      by (apply Hw, in_elt).
    destruct (apply_effect_ok s e w Hn Hew) as (A & B & C).
    split; [exact A|]. split.
    + intros r [<- | Hin]; [now split|].
      destruct (Hr r Hin) as [X Y]. split; [exact X|]. intros k K. now apply B, Y.
    + intros w' Hin. apply in_app_or in Hin as [Hin | [<- | Hin]].
      * apply (writes_ok_mono w' (left_idle s)); [exact B|].
        apply Hw, in_or_app. now left.
      * exact C.
      * apply (writes_ok_mono w' (left_idle s)); [exact B|].
        apply Hw, in_or_app. right. now right.
  - split; [exact Hn|]. split; [exact Hr|].
    intros w' Hin. apply in_app_or in Hin as [Hin | [<- | [<- | Hin]]].
    + apply Hw, in_or_app. now left.
    + assert (X : writes_ok (left_idle s) (setTimeout ms n :: w))
        by (apply Hw, in_elt).
      exact X.
    + exact I.
    + apply Hw, in_or_app. right. now right.
Qed.

Lemma live_reachable_inv (p : props) (env : collaborators) (l : live) :
  live_reachable p env l -> live_inv l.
Proof.
  induction 1 as [|l l' R IH St].
  - split; [|split].
    + intros k. destruct k; cbn; discriminate.
    + intros r [].
    + intros w [].
  - now apply (live_step_inv p env l l').
Qed.

(** A run in flight can be carried to its end, timers included. *)
Lemma live_run_to_end (p : props) (env : collaborators) (w : list effect) :
  forall s R P1 P2,
    live_reachable p env (mk_live s R (P1 ++ w :: P2)%list) ->
    exists R' P', live_reachable p env (mk_live (commit s w) R' P').
Proof.
  induction w as [|e w IH]; intros s R P1 P2 H.
  - now exists R, (P1 ++ [] :: P2)%list.
  - change (commit s (e :: w)) with (commit (apply_effect s e) w).
    destruct (is_setTimeout e) eqn:Te.
    + destruct e; try discriminate.
      assert (H1 : live_reachable p env
                     (mk_live s R (P1 ++ w :: [setCurrentStep n] :: P2)%list))
        by (eapply live_next; [exact H | apply live_timer]).
      assert (E : (P1 ++ w :: [setCurrentStep n] :: P2
                   = (P1 ++ [w]) ++ [setCurrentStep n] :: P2)%list)
        by (now rewrite <- app_assoc).
      rewrite E in H1.
      assert (H2 : live_reachable p env
                     (mk_live (apply_effect s (setCurrentStep n)) (s :: R)
                        ((P1 ++ [w]) ++ [] :: P2)%list))
        by (eapply live_next; [exact H1 | now apply live_effect]).
      rewrite <- app_assoc in H2. cbn [app] in H2.
      exact (IH _ _ _ _ H2).
    + assert (H1 : live_reachable p env
                     (mk_live (apply_effect s e) (s :: R) (P1 ++ w :: P2)%list))
        by (eapply live_next; [exact H | now apply live_effect]).
      exact (IH _ _ _ _ H1).
Qed.

(** The states at rest of a session without overlap are states of the live
    session. *)
Lemma reachable_is_live (p : props) (env : collaborators) (s : wizard_state) :
  reachable p env s -> exists R P, live_reachable p env (mk_live s R P).
Proof.
  induction 1 as [|s o Rs (R & P & IH)].
  - exists [], []. constructor.
  - assert (H : live_reachable p env
                  (mk_live s R (P ++ [trace p env s o])%list)).
    { eapply live_next; [exact IH|]. apply live_start. now left. }
    exact (live_run_to_end p env (trace p env s o) s R P [] H).
Qed.

(** C2, amended.  In every state of a session, with runs in flight and
    overlapping runs included, [isComplete] is true exactly when every slot
    holds a truthy parsed payload.  A slot that holds one has left ['idle'],
    so while [isComplete] is true no slot is idle and while some slot is
    idle [isComplete] is false; the slot's status need not be ['success']. *)
Theorem isComplete_iff_all_slots_have_data
    (p : props) (env : collaborators) (l : live) :
  live_reachable p env l ->
  (is_complete (now l) = true
   <-> forall k, JS.truthy (get k (parsedData (now l))) = true)
  /\ (forall k, JS.truthy (get k (parsedData (now l))) = true ->
                get k (uploadStatus (now l)) <> Some Status.idle)
  /\ (is_complete (now l) = true ->
      forall k, get k (uploadStatus (now l)) <> Some Status.idle)
  /\ (forall k, get k (uploadStatus (now l)) = Some Status.idle ->
                is_complete (now l) = false).
Proof.
  intros R. destruct (live_reachable_inv p env l R) as (Hn & _ & _).
  assert (A : forall k, JS.truthy (get k (parsedData (now l))) = true ->
                        get k (uploadStatus (now l)) <> Some Status.idle).
  { intros k T E. specialize (Hn k T). unfold left_idle in Hn.
    rewrite E in Hn. discriminate. }
  split; [apply is_complete_slots|]. split; [exact A|]. split.
  - intros C k. apply A. now apply is_complete_slots.
  - intros k E. destruct (is_complete (now l)) eqn:C; [|reflexivity].
    exfalso. apply (A k); [|exact E]. now apply is_complete_slots.
Qed.

Lemma isComplete_iff_all_slots_have_data_witness :
  let o := submitFile Key.asset_allocation (Some Sample.allocation_pdf) None in
  let tr := trace Sample.both Sample.env initial o in
  let l := mk_live (apply_effect initial (hd (setCurrentStep 0) tr))
             [initial] [tl tr] in
  live_reachable Sample.both Sample.env l
  /\ get Key.asset_allocation (uploadStatus (now l)) = Some Status.processing
  /\ get Key.performance (uploadStatus (now l)) = Some Status.idle
  /\ is_complete (now l) = false.
Proof.
  intros o tr l.
  assert (R : live_reachable Sample.both Sample.env l).
  { eapply live_next.
    - eapply live_next; [apply live_initial|].
      apply (live_start Sample.both Sample.env o initial initial [] []).
      now left.
    - apply (live_effect Sample.both Sample.env
               (hd (setCurrentStep 0) tr) (tl tr) initial [] [] []).
      reflexivity. }
  split; [exact R|]. split; [reflexivity|]. split; [reflexivity|].
  destruct (isComplete_iff_all_slots_have_data Sample.both Sample.env l R)
    as (_ & _ & _ & H).
  apply (H Key.performance). reflexivity.
Defined.

(** C5.  Two valid files dropped on the two slots so that the uploads
    overlap: the performance upload starts while the allocation upload is
    still being extracted (its handler, called in the state reached by then,
    runs as from the first render), and finishes after it.  Both slots end in
    [success] and [onPartialData] is called for each, but [onComplete] is not
    called at all and [parsedData] has lost the allocation payload, whereas
    the same two uploads taken one after the other call [onComplete] once
    with both payloads. *)
Theorem overlapping_completion_is_never_reported :
  let a := submitFile Key.asset_allocation (Some Sample.allocation_pdf) None in
  let b := submitFile Key.performance (Some Sample.movement_pdf) None in
  let ta := trace Sample.both Sample.env initial a in
  let tb := trace Sample.both Sample.env initial b in
  let w := (firstn 3 ta ++ firstn 3 tb ++ skipn 3 ta ++ skipn 3 tb)%list in
  interleaved ta tb w
  /\ trace Sample.both Sample.env (commit initial (firstn 3 ta)) b = tb
  /\ uploadStatus (commit initial w)
     = mk_slots (Some Status.success) (Some Status.success)
  /\ onPartialData_calls w
     = [(Key.asset_allocation, Sample.allocation_data);
        (Key.performance, Sample.movement_data)]
  /\ onComplete_payloads w = []
  /\ parsedData (commit initial w) = mk_slots JS.Null Sample.movement_data
  /\ is_complete (commit initial w) = false
  /\ onComplete_payloads (trace_ops Sample.both Sample.env initial [a; b])
     = [mk_slots Sample.allocation_data Sample.movement_data].
Proof.
  intros a b ta tb w. split.
  - vm_compute.
    repeat first [apply interleaved_nil | apply interleaved_left
                 | apply interleaved_right].
  - vm_compute. repeat split.
Qed.
